(** * Bundle Stats Action

    A shallow embedding of the analysis pipeline of the action:
    - [formatFileSize]            (src/utils/file-size.ts)
    - [StatsParser.parse]         (src/parser/stats-parser.ts)
    - [BundleAnalyzer.analyze]    (src/analyzer/bundle-analyzer.ts)
    - [BadgeGenerator.getColors]  (src/formatter/badge-generator.ts)
    and, further down, [formatSizeDiff], [getTopAssets], [getExtension],
    [groupByExtension], [StatsParser.parseFile], [escapeMarkdown]
    (src/utils/markdown.ts) and the error paths of
    [CommentManager.postComment] (src/manager/comment-manager.ts).

    Modelling conventions.
    - A JavaScript [number] that holds a byte count is an integer, [Z].
      Sums and comparisons of such counts are exact in IEEE doubles below
      2^53, so integer arithmetic is what the code computes there.
    - The scaled magnitude [absBytes / Math.pow(1024, i)] is a division of
      an integer by a power of two, exact in IEEE doubles; it is a rational,
      [Q].
    - [Math.floor(Math.log(a) / Math.log(1024))] is computed on doubles.
      In [formatFileSize] it is the integer logarithm in base 1024,
      [Z.log2 a / 10], which the quotient of the two doubles has for its
      floor at the byte counts evaluated below and at every count under
      1024^4; just beneath 1024^5 the quotient rounds up to 5 and the two
      part.  In [formatFileSize_with] it is a parameter, so that what is
      proved there holds whatever the doubles give, and the byte count is
      any rational, whole or not.
    - A [string] is a Rocq [string]; every suffix the code tests is ASCII.
    - A [Map<string, string[]>] is a [gmap string (list string)]; a JS
      object walked with [Object.entries] is the list of its entries in
      that order.
    - A [Map] that is returned to the caller, whose iteration order can
      be observed, is the list of its entries in insertion order.
    - The file system, [JSON.parse] and the GitHub API are parameters: the
      outcome of each call, a value or what it throws.
    - An optional field [f?: T] is an [option T]. *)

From Stdlib Require Import ZArith QArith Qround Qabs Qpower String Ascii.
From Stdlib Require Import List Lia.
From Stdlib Require Import DecimalString Permutation Sorted.
From stdpp Require Import gmap strings list.

Open Scope Z_scope.

(** ** JavaScript primitives used by the code *)

Module JS.

(** [`${n}`] for an integer [n >= 0]. *)
Definition show_int (n : Z) : string :=
  NilZero.string_of_uint (N.to_uint (Z.to_N n)).

(** [Math.round(x)]: the nearest integer, halves rounded up. *)
Definition Math_round (x : Q) : Z := Qfloor (x + (1 # 2)).

Definition digit (d : Z) : ascii :=
  ascii_of_nat (48 + Z.to_nat d).

(** The last [f] decimal digits of [r], most significant first. *)
Fixpoint frac_digits (f : nat) (r : Z) : string :=
  match f with
  | O => ""
  | S f' => frac_digits f' (r / 10) +:+ String (digit (r mod 10)) ""
  end.

(** [x.toFixed(f)] for [x >= 0]: with [n] the integer for which
    [n / 10^f - x] is closest to zero (the larger one when there are
    two), the digits of [n] with a point before the last [f] of them. *)
Definition toFixed (f : nat) (x : Q) : string :=
  let n := Qfloor (x * inject_Z (10 ^ Z.of_nat f) + (1 # 2)) in
  let whole := show_int (n / 10 ^ Z.of_nat f) in
  match f with
  | O => whole
  | S _ => whole +:+ "." +:+ frac_digits f (n mod 10 ^ Z.of_nat f)
  end.

(** [`${v}`] where [v] may be [undefined]. *)
Definition template (v : option string) : string :=
  default "undefined" v.

(** [s.endsWith(suffix)]: some tail of [s] is [suffix]. *)
Fixpoint endsWith (s suffix : string) : bool :=
  String.eqb s suffix ||
  match s with
  | EmptyString => false
  | String _ s' => endsWith s' suffix
  end.

(** [l.includes(x)] on an array of strings. *)
Definition includes (l : list string) (x : string) : bool :=
  existsb (String.eqb x) l.

(** [l.sort(compareFn)]: the sort is stable (ECMAScript 2019), an element
    goes before the first one it does not compare greater than. *)
Section Sort.
Context {A : Type} (compareFn : A -> A -> Z).

Fixpoint sort_insert (x : A) (l : list A) : list A :=
  match l with
  | [] => [x]
  | y :: l' =>
      if compareFn x y <=? 0 then x :: y :: l'
      else y :: sort_insert x l'
  end.

Definition sort (l : list A) : list A := foldr sort_insert [] l.
End Sort.

End JS.

(** ** src/utils/file-size.ts *)

Definition SIZES : list string := ["B"; "KB"; "MB"; "GB"]%string.

Definition formatFileSize (bytes : Z) : string :=
  if bytes =? 0 then "0 B"
  else
    let negative := bytes <? 0 in
    let absBytes := Z.abs bytes in
    let k := 1024 in
    let i := Z.log2 absBytes / Z.log2 k in
    let size := (inject_Z absBytes / inject_Z (k ^ i))%Q in
    let unit := JS.template (SIZES !! Z.to_nat i) in
    let formatted :=
      if i =? 0 then JS.show_int (JS.Math_round size) +:+ " " +:+ unit
      else if Qle_bool 100 size then
        JS.show_int (JS.Math_round size) +:+ " " +:+ unit
      else if Qle_bool 10 size then JS.toFixed 1 size +:+ " " +:+ unit
      else JS.toFixed 2 size +:+ " " +:+ unit in
    if negative then "-" +:+ formatted else formatted.

(** ** src/errors.ts *)

Inductive ErrorCode :=
| FILE_NOT_FOUND | FILE_READ_ERROR | FILE_TOO_LARGE
| JSON_PARSE_ERROR | INVALID_STATS_FORMAT
| GITHUB_API_ERROR | RATE_LIMIT_ERROR | COMMENT_NOT_FOUND
| INVALID_CONFIG | INVALID_THRESHOLD
| MEMORY_LIMIT_ERROR | UNKNOWN_ERROR.

Inductive ErrorLevel := fatal | error | warning | info.

Module BundleStatsError.
Record t := mk { message : string; code : ErrorCode; level : ErrorLevel }.
End BundleStatsError.

Definition createError (code : ErrorCode) (message : string)
    (level : ErrorLevel) : BundleStatsError.t :=
  BundleStatsError.mk message code level.

(** ** src/parser/stats-parser.ts *)

(** The values [JSON.parse] produces. *)
#[warnings="-register-all"]
Inductive json :=
| JNull
| JBool (b : bool)
| JNumber (n : Q)
| JString (s : string)
| JArray (items : list json)
| JObject (entries : list (string * json)).

Module StatsParser.

Inductive js_type := type_object | type_boolean | type_number | type_string.

(** [typeof data]: [null], arrays and objects are all ['object']. *)
Definition typeof (data : json) : js_type :=
  match data with
  | JNull | JArray _ | JObject _ => type_object
  | JBool _ => type_boolean
  | JNumber _ => type_number
  | JString _ => type_string
  end.

Definition is_null (data : json) : bool :=
  match data with JNull => true | _ => false end.

(** [data[key]] on a parsed value: only an object has a property under a
    name such as ["assets"]. *)
Fixpoint get_entry (key : string) (entries : list (string * json))
    : option json :=
  match entries with
  | [] => None
  | (k, v) :: rest => if String.eqb k key then Some v else get_entry key rest
  end.

Definition property (data : json) (key : string) : option json :=
  match data with
  | JObject entries => get_entry key entries
  | _ => None
  end.

(** [key in data]. *)
Definition has_property (key : string) (data : json) : bool :=
  match property data key with Some _ => true | None => false end.

(** [Array.isArray(v)], with [undefined] for a missing property. *)
Definition Array_isArray (v : option json) : bool :=
  match v with Some (JArray _) => true | _ => false end.

Definition isValidStats (data : json) : bool :=
  match typeof data with type_object => true | _ => false end
  && negb (is_null data)
  && has_property "assets" data
  && Array_isArray (property data "assets").

(** [s] between double quotes. *)
Definition quoted (s : string) : string :=
  String (ascii_of_nat 34) (s +:+ String (ascii_of_nat 34) "").

Section Parse.
(** [JSON.parse]: the decoded value, or the message of the
    [SyntaxError] it throws. *)
Variable JSON_parse : string -> string + json.

(** [parse] returns the stats or throws a [BundleStatsError]. *)
Definition parse (content : string) : BundleStatsError.t + json :=
  match JSON_parse content with
  | inl error_message =>
      inl (createError JSON_PARSE_ERROR
             ("Invalid JSON in stats file: " +:+ error_message) fatal)
  | inr data =>
      if negb (isValidStats data) then
        inl (createError INVALID_STATS_FORMAT
               ("Invalid webpack stats format: missing required "
                +:+ quoted "assets" +:+ " array")
               fatal)
      else inr data
  end.
End Parse.

End StatsParser.

(** ** src/types.ts *)

Module Asset.
Record t := mk {
  name : string;
  size : Z;
  emitted : option bool;
  isOverSizeLimit : option bool
}.
End Asset.

Module Chunk.
Record t := mk {
  names : list string;
  files : option (list string)
}.
End Chunk.

Module ChunkGroup.
Record t := mk { assets : list string }.
End ChunkGroup.

Module WebpackStats.
Record t := mk {
  assets : list Asset.t;
  chunks : option (list Chunk.t);
(** [Record<string, string | string[]>], as its entries *)
  assetsByChunkName : option (list (string * (string + list string)));
(** [Record<string, ChunkGroup>], as its entries *)
  namedChunkGroups : option (list (string * ChunkGroup.t))
}.
End WebpackStats.

Module AnalyzedAsset.
Record t := mk {
  name : string;
  size : Z;
  sizeText : string;
  exceeded : bool;
  chunkNames : list string;
  isInitial : option bool
}.
End AnalyzedAsset.

Module Summary.
Record t := mk {
  totalSize : Z;
  totalSizeText : string;
  fileCount : nat;
  exceededFileCount : nat
}.
End Summary.

Module Threshold.
Record t := mk {
  individualExceeded : list string;
  totalExceeded : bool;
  anyExceeded : bool
}.
End Threshold.

Module AnalysisResult.
Record t := mk {
  assets : list AnalyzedAsset.t;
  summary : Summary.t;
  threshold : Threshold.t
}.
End AnalysisResult.

Module Config.
Record t := mk {
  statsPath : string;
  bundleSizeThreshold : Z;
  totalSizeThreshold : Z;
  failOnThresholdExceed : bool
}.
End Config.

(** ** src/analyzer/bundle-analyzer.ts *)

Module BundleAnalyzer.

(** [mapping.get(key) || []] *)
Definition get_or_empty (mapping : gmap string (list string))
    (key : string) : list string :=
  default [] (mapping !! key).

(** First source: [assetsByChunkName]. The chunk name is pushed without
    looking at the names already there. *)
Definition addAssetsByChunkName (mapping : gmap string (list string))
    (entry : string * (string + list string))
    : gmap string (list string) :=
  let '(chunkName, assets) := entry in
  let assetList := match assets with inl a => [a] | inr l => l end in
  foldl (fun mapping asset =>
           let existing := get_or_empty mapping asset in
           <[asset := existing ++ [chunkName]]> mapping)
        mapping assetList.

(** [if (!existing.includes(name)) existing.push(name)] *)
Definition push_new (existing : list string) (name : string)
    : list string :=
  if negb (JS.includes existing name) then existing ++ [name]
  else existing.

(** Second source: [chunks]. *)
Definition addChunk (mapping : gmap string (list string))
    (chunk : Chunk.t) : gmap string (list string) :=
  match Chunk.files chunk with
  | Some files =>
      foldl (fun mapping file =>
               let existing := get_or_empty mapping file in
               <[file := foldl push_new existing (Chunk.names chunk)]>
                 mapping)
            mapping files
  | None => mapping
  end.

(** Third source: [namedChunkGroups]. *)
Definition addNamedChunkGroup (mapping : gmap string (list string))
    (entry : string * ChunkGroup.t) : gmap string (list string) :=
  let '(groupName, group) := entry in
  foldl (fun mapping asset =>
           let existing := get_or_empty mapping asset in
           <[asset := push_new existing groupName]> mapping)
        mapping (ChunkGroup.assets group).

Definition buildChunkMapping (stats : WebpackStats.t)
    : gmap string (list string) :=
  let mapping : gmap string (list string) := ∅ in
  let mapping :=
    match WebpackStats.assetsByChunkName stats with
    | Some entries => foldl addAssetsByChunkName mapping entries
    | None => mapping
    end in
  let mapping :=
    match WebpackStats.chunks stats with
    | Some chunks => foldl addChunk mapping chunks
    | None => mapping
    end in
  let mapping :=
    match WebpackStats.namedChunkGroups stats with
    | Some groups => foldl addNamedChunkGroup mapping groups
    | None => mapping
    end in
  mapping.

(** The predicate of the [filter] call of [analyzeAssets]. *)
Definition isBundleFile (asset : Asset.t) : bool :=
  negb (JS.endsWith (Asset.name asset) ".map")
  && negb (JS.endsWith (Asset.name asset) ".LICENSE.txt")
  && negb (bool_decide (Asset.emitted asset = Some false)).

(** The function of the [map] call of [analyzeAssets]. *)
Definition analyzeAsset (threshold : Z)
    (chunkMapping : gmap string (list string)) (asset : Asset.t)
    : AnalyzedAsset.t :=
  {| AnalyzedAsset.name := Asset.name asset;
     AnalyzedAsset.size := Asset.size asset;
     AnalyzedAsset.sizeText := formatFileSize (Asset.size asset);
     AnalyzedAsset.exceeded := threshold <? Asset.size asset;
     AnalyzedAsset.chunkNames := get_or_empty chunkMapping (Asset.name asset);
     AnalyzedAsset.isInitial :=
       match Asset.isOverSizeLimit asset with
       | Some over => Some (negb over)
       | None => None
       end |}.

(** The comparator of the [sort] call of [analyzeAssets]. *)
Definition bySizeDescending (a b : AnalyzedAsset.t) : Z :=
  AnalyzedAsset.size b - AnalyzedAsset.size a.

Definition analyzeAssets (assets : list Asset.t) (threshold : Z)
    (chunkMapping : gmap string (list string)) : list AnalyzedAsset.t :=
  JS.sort bySizeDescending
    (map (analyzeAsset threshold chunkMapping)
       (filter (fun asset => isBundleFile asset = true) assets)).

Definition analyze (stats : WebpackStats.t) (config : Config.t)
    : AnalysisResult.t :=
  let chunkMapping := buildChunkMapping stats in
  let analyzedAssets :=
    analyzeAssets (WebpackStats.assets stats)
      (Config.bundleSizeThreshold config) chunkMapping in
  let totalSize :=
    foldl (fun sum asset => sum + AnalyzedAsset.size asset) 0
      analyzedAssets in
  let exceededFiles :=
    filter (fun asset => AnalyzedAsset.exceeded asset = true)
      analyzedAssets in
  let individualExceeded := map AnalyzedAsset.name exceededFiles in
  let totalExceeded := Config.totalSizeThreshold config <? totalSize in
  {| AnalysisResult.assets := analyzedAssets;
     AnalysisResult.summary :=
       {| Summary.totalSize := totalSize;
          Summary.totalSizeText := formatFileSize totalSize;
          Summary.fileCount := length analyzedAssets;
          Summary.exceededFileCount := length exceededFiles |};
     AnalysisResult.threshold :=
       {| Threshold.individualExceeded := individualExceeded;
          Threshold.totalExceeded := totalExceeded;
          Threshold.anyExceeded :=
            (0 <? length individualExceeded)%nat || totalExceeded |} |}.

End BundleAnalyzer.

(** ** src/formatter/badge-generator.ts *)

Module BadgeGenerator.

Record BadgeColors := mkColors {
  background : string;
  text : string;
  valueBackground : string;
  valueText : string
}.

Definition success : BadgeColors := mkColors "#555" "#fff" "#4c1" "#fff".
Definition warning : BadgeColors := mkColors "#555" "#fff" "#fe7d37" "#fff".
Definition error : BadgeColors := mkColors "#555" "#fff" "#e05d44" "#fff".

Definition getColors (result : AnalysisResult.t) : BadgeColors :=
  if Threshold.anyExceeded (AnalysisResult.threshold result) then error
  else if (0 <? Summary.exceededFileCount (AnalysisResult.summary result))%nat
  then warning
  else success.

End BadgeGenerator.

(** * Vocabulary of the specification *)

(** The decoded value is an object that contains an array-typed [assets]
    field. *)
Definition object_with_assets_array (data : json) : Prop :=
  exists entries items,
    data = JObject entries
    /\ StatsParser.get_entry "assets" entries = Some (JArray items).

(** [parse content] throws an error that carries [code]. *)
Definition throws (JSON_parse : string -> string + json) (code : ErrorCode)
    (content : string) : Prop :=
  exists e, StatsParser.parse JSON_parse content = inl e
            /\ BundleStatsError.code e = code.

(** [s] ends with [suffix]. *)
Definition ends_with (s suffix : string) : Prop :=
  exists p, s = p +:+ suffix.

(** An asset that is left out of the report: a source map, a license text,
    or an asset whose [emitted] flag is explicitly [false]. *)
Definition excluded (asset : Asset.t) : Prop :=
  ends_with (Asset.name asset) ".map"
  \/ ends_with (Asset.name asset) ".LICENSE.txt"
  \/ Asset.emitted asset = Some false.


(** [l] is in descending order of size. *)
Definition descending_by_size (l : list AnalyzedAsset.t) : Prop :=
  StronglySorted
    (fun a b => AnalyzedAsset.size b <= AnalyzedAsset.size a) l.

(** The elements of [l] whose size is [s], in the order they have in [l]. *)
Definition of_size (s : Z) (l : list AnalyzedAsset.t)
    : list AnalyzedAsset.t :=
  filter (fun a => AnalyzedAsset.size a = s) l.

(** The manifest [stats] with another asset sequence. *)
Definition with_assets (stats : WebpackStats.t) (assets : list Asset.t)
    : WebpackStats.t :=
  {| WebpackStats.assets := assets;
     WebpackStats.chunks := WebpackStats.chunks stats;
     WebpackStats.assetsByChunkName := WebpackStats.assetsByChunkName stats;
     WebpackStats.namedChunkGroups := WebpackStats.namedChunkGroups stats |}.

(** The unit index and the scaled magnitude of a byte count, and the text
    of its unit and of its sign. *)
Definition unit_index (bytes : Z) : Z := Z.log2 (Z.abs bytes) / 10.

Definition magnitude (bytes : Z) : Q :=
  (inject_Z (Z.abs bytes) / inject_Z (1024 ^ unit_index bytes))%Q.

Definition unit_text (i : Z) : string := JS.template (SIZES !! Z.to_nat i).

Definition sign_text (bytes : Z) : string :=
  if bytes <? 0 then "-" else "".

(** The precision rule: [d] decimal places for the magnitude [m] in the
    unit of index [i]. *)
Definition precision_rule (i : Z) (m : Q) (d : nat) : Prop :=
  (i = 0 \/ (100 <= m)%Q -> d = 0%nat)
  /\ (i <> 0 -> (10 <= m)%Q /\ (m < 100)%Q -> d = 1%nat)
  /\ (i <> 0 -> (m < 10)%Q -> d = 2%nat).

(** The number of decimal places the branches of [formatFileSize] ask for. *)
Definition chosen_decimals (i : Z) (m : Q) : nat :=
  if i =? 0 then 0%nat
  else if Qle_bool 100 m then 0%nat
  else if Qle_bool 10 m then 1%nat
  else 2%nat.

Definition is_digit (c : ascii) : bool :=
  (48 <=? nat_of_ascii c)%nat && (nat_of_ascii c <=? 57)%nat.

Fixpoint all_digits (s : string) : bool :=
  match s with
  | EmptyString => true
  | String c s' => is_digit c && all_digits s'
  end.

Fixpoint chars_before_space (s : string) : nat :=
  match s with
  | EmptyString => 0
  | String c s' =>
      if Ascii.eqb c " " then 0%nat else S (chars_before_space s')
  end.

(** The number of characters between the decimal point of the numeral
    that starts [s] and the space that ends it, 0 without a point. *)
Fixpoint decimal_places (s : string) : nat :=
  match s with
  | EmptyString => 0
  | String c s' =>
      if Ascii.eqb c " " then 0%nat
      else if Ascii.eqb c "." then chars_before_space s'
      else decimal_places s'
  end.

(** The asset names one value of [assetsByChunkName] stands for. *)
Definition entry_assets (assets : string + list string) : list string :=
  match assets with inl a => [a] | inr l => l end.

(** Every list of chunk names held by [mapping] is free of duplicates and
    of the names in [fresh]. *)
Definition names_distinct (fresh : list string)
    (mapping : gmap string (list string)) : Prop :=
  forall key names, mapping !! key = Some names ->
    NoDup names /\ forall c, c ∈ fresh -> c ∉ names.

(** A manifest whose only chunk lists the same asset twice. *)
Definition repeated_asset_stats : WebpackStats.t :=
  {| WebpackStats.assets := [ Asset.mk "a.js" 1 None None ];
     WebpackStats.chunks := None;
     WebpackStats.assetsByChunkName :=
       Some [ ("main"%string, inr ["a.js"; "a.js"]%string) ];
     WebpackStats.namedChunkGroups := None |}.

(** The manifest and the config of the end-to-end scenario. *)
Definition scenario_stats : WebpackStats.t :=
  {| WebpackStats.assets :=
       [ Asset.mk "main.js" 1048576 (Some true) None;
         Asset.mk "vendor.js" 3145728 (Some true) None;
         Asset.mk "styles.css" 524288 (Some true) None;
         Asset.mk "main.js.map" 2097152 (Some true) None;
         Asset.mk "vendor.js.LICENSE.txt" 1024 (Some true) None ];
     WebpackStats.chunks := None;
     WebpackStats.assetsByChunkName := None;
     WebpackStats.namedChunkGroups := None |}.

Definition scenario_config : Config.t :=
  {| Config.statsPath := "webpack-stats.json";
     Config.bundleSizeThreshold := 2097152;
     Config.totalSizeThreshold := 10485760;
     Config.failOnThresholdExceed := true |}.

(** * More of the code *)

(** ** More of src/utils/file-size.ts *)

Definition formatSizeDiff (diff : Z) : string :=
  let formatted := formatFileSize (Z.abs diff) in
  if 0 <? diff then "📈 +" +:+ formatted
  else if diff <? 0 then "📉 -" +:+ formatted
  else "→ " +:+ formatted.

(** ** More of src/analyzer/bundle-analyzer.ts *)

Module JSArray.

(** [l.slice(0, end)]: a negative [end] counts from the end of [l]. *)
Definition slice_to {A : Type} (l : list A) (end_ : Z) : list A :=
  let len := Z.of_nat (length l) in
  let final := if end_ <? 0 then Z.max (len + end_) 0 else Z.min end_ len in
  take (Z.to_nat final) l.

End JSArray.

Module JSString.

(** The greatest index from [k] on, at most [start], at which [s] (whose
    first character has index [k]) holds [c]; [found] when there is none. *)
Fixpoint lastIndexOf_scan (c : ascii) (s : string) (k start : nat)
    (found : Z) : Z :=
  match s with
  | EmptyString => found
  | String x s' =>
      lastIndexOf_scan c s' (S k) start
        (if Ascii.eqb x c && (k <=? start)%nat then Z.of_nat k else found)
  end.

(** [s.lastIndexOf(c, position)] for a one-character search string: the
    search starts at [position], clamped to the indices of [s], or at the
    end without a position; -1 when [c] is not found. *)
Definition lastIndexOf (s : string) (c : ascii) (position : option Z) : Z :=
  let len := Z.of_nat (String.length s) in
  let start :=
    match position with
    | None => len - 1
    | Some p => Z.min (Z.max p 0) (len - 1)
    end in
  if start <? 0 then -1 else lastIndexOf_scan c s 0 (Z.to_nat start) (-1).

(** An index argument of [slice]: negative counts from the end. *)
Definition relative_index (len i : Z) : Z :=
  if i <? 0 then Z.max (len + i) 0 else Z.min i len.

(** [s.slice(start, end)], [s.slice(start)] without [end]. *)
Definition slice (s : string) (start : Z) (end_ : option Z) : string :=
  let len := Z.of_nat (String.length s) in
  let from := relative_index len start in
  let to := match end_ with
            | None => len
            | Some e => relative_index len e
            end in
  substring (Z.to_nat from) (Z.to_nat (Z.max (to - from) 0)) s.

End JSString.

(** A [Map<string, V>] as its entries in insertion order. *)
Module JSMap.

Fixpoint get {V : Type} (m : list (string * V)) (key : string) : option V :=
  match m with
  | [] => None
  | (k, v) :: m' => if String.eqb k key then Some v else get m' key
  end.

(** [m.set(key, value)]: an existing key keeps its place. *)
Fixpoint set {V : Type} (m : list (string * V)) (key : string) (value : V)
    : list (string * V) :=
  match m with
  | [] => [(key, value)]
  | (k, v) :: m' =>
      if String.eqb k key then (k, value) :: m'
      else (k, v) :: set m' key value
  end.

End JSMap.

Definition getExtension (filename : string) : string :=
  let lastDot := JSString.lastIndexOf filename "." None in
  if lastDot =? -1 then ""
  else
    let ext := JSString.slice filename lastDot None in
    let secondLastDot :=
      JSString.lastIndexOf filename "." (Some (lastDot - 1)) in
    if negb (secondLastDot =? -1)
       && String.eqb (JSString.slice filename secondLastDot (Some lastDot))
            ".min"
    then JSString.slice filename secondLastDot None
    else ext.

Definition groupByExtension (assets : list AnalyzedAsset.t)
    : list (string * list AnalyzedAsset.t) :=
  foldl (fun groups asset =>
           let ext := getExtension (AnalyzedAsset.name asset) in
           let group := default [] (JSMap.get groups ext) in
           JSMap.set groups ext (group ++ [asset]))
        [] assets.

(** ** More of src/parser/stats-parser.ts *)

Definition MAX_FILE_SIZE : Z := 50 * 1024 * 1024.

Section ParseFile.
(** [fs.existsSync], the [size] of [fs.statSync], and [fs.readFileSync]:
    the content, or what it throws (the message of an [Error], nothing
    for another value). *)
Variable existsSync : string -> bool.
Variable statSync_size : string -> Z.
Variable readFileSync : string -> option string + string.
Variable JSON_parse : string -> string + json.

Definition parseFile (filePath : string) : BundleStatsError.t + json :=
  if negb (existsSync filePath) then
    inl (createError FILE_NOT_FOUND
           ("Stats file not found: " +:+ filePath) fatal)
  else
    let size := statSync_size filePath in
    if MAX_FILE_SIZE <? size then
      inl (createError FILE_TOO_LARGE
             ("Stats file too large: " +:+ JS.show_int size
              +:+ " bytes (max: " +:+ JS.show_int MAX_FILE_SIZE
              +:+ " bytes)")
             fatal)
    else
      match readFileSync filePath with
      | inl thrown =>
          inl (createError FILE_READ_ERROR
                 ("Failed to read stats file: "
                  +:+ default "Unknown error" thrown)
                 fatal)
      | inr content => StatsParser.parse JSON_parse content
      end.
End ParseFile.

(** ** src/utils/markdown.ts *)

Definition double_quote : ascii := ascii_of_nat 34.

(** [s.replace(/c/g, replacement)] for a pattern of one character [c] and
    a replacement without [$]. *)
Fixpoint replace_global (c : ascii) (replacement : string) (s : string)
    : string :=
  match s with
  | EmptyString => ""
  | String x s' =>
      if Ascii.eqb x c then replacement +:+ replace_global c replacement s'
      else String x (replace_global c replacement s')
  end.

Definition escapeMarkdown (text : string) : string :=
  replace_global "'" "&#39;"
    (replace_global double_quote "&quot;"
       (replace_global ">" "&gt;"
          (replace_global "<" "&lt;"
             (replace_global "|" "\|" text)))).

Definition getTopAssets (assets : list AnalyzedAsset.t) (limit : Z)
    : list AnalyzedAsset.t :=
  JSArray.slice_to assets limit.

(** The name [name] is attributed to [asset] by one of the three sources
    of [stats]. *)
Definition attributed (stats : WebpackStats.t) (asset name : string)
    : Prop :=
  (exists entries assets,
     WebpackStats.assetsByChunkName stats = Some entries
     /\ (name, assets) ∈ entries /\ asset ∈ entry_assets assets)
  \/ (exists chunks chunk files,
        WebpackStats.chunks stats = Some chunks
        /\ chunk ∈ chunks /\ Chunk.files chunk = Some files
        /\ asset ∈ files /\ name ∈ Chunk.names chunk)
  \/ (exists groups group,
        WebpackStats.namedChunkGroups stats = Some groups
        /\ (name, group) ∈ groups /\ asset ∈ ChunkGroup.assets group).

(** [stats] without its [namedChunkGroups], and with [assetsByChunkName]
    as its only source. *)
Definition without_namedChunkGroups (stats : WebpackStats.t)
    : WebpackStats.t :=
  {| WebpackStats.assets := WebpackStats.assets stats;
     WebpackStats.chunks := WebpackStats.chunks stats;
     WebpackStats.assetsByChunkName := WebpackStats.assetsByChunkName stats;
     WebpackStats.namedChunkGroups := None |}.

Definition only_assetsByChunkName (stats : WebpackStats.t)
    : WebpackStats.t :=
  {| WebpackStats.assets := WebpackStats.assets stats;
     WebpackStats.chunks := None;
     WebpackStats.assetsByChunkName := WebpackStats.assetsByChunkName stats;
     WebpackStats.namedChunkGroups := None |}.

(** Every list of [mapping'] starts with the list [mapping] has under the
    same key. *)
Definition extends (mapping mapping' : gmap string (list string)) : Prop :=
  forall key,
    BundleAnalyzer.get_or_empty mapping key
    `prefix_of` BundleAnalyzer.get_or_empty mapping' key.

(** [c] occurs in [s]. *)
Fixpoint has_char (c : ascii) (s : string) : bool :=
  match s with
  | EmptyString => false
  | String x s' => Ascii.eqb x c || has_char c s'
  end.

(** What one character becomes in a markdown table cell. *)
Definition escape_char (c : ascii) : string :=
  if Ascii.eqb c "|" then "\|"
  else if Ascii.eqb c "<" then "&lt;"
  else if Ascii.eqb c ">" then "&gt;"
  else if Ascii.eqb c double_quote then "&quot;"
  else if Ascii.eqb c "'" then "&#39;"
  else String c "".

Fixpoint escape_each (s : string) : string :=
  match s with
  | EmptyString => ""
  | String c s' => escape_char c +:+ escape_each s'
  end.

(** Every "|" of [s] comes right after a backslash; [after_backslash]
    tells whether [s] itself does. *)
Fixpoint pipes_escaped (after_backslash : bool) (s : string) : bool :=
  match s with
  | EmptyString => true
  | String c s' =>
      (if Ascii.eqb c "|" then after_backslash else true)
      && pipes_escaped (Ascii.eqb c "\") s'
  end.

(** The code of the error a parser run ends with, if it ends with one. *)
Definition error_code (outcome : BundleStatsError.t + json)
    : option ErrorCode :=
  match outcome with
  | inl e => Some (BundleStatsError.code e)
  | inr _ => None
  end.

(** The distinct elements of [l], in the order of their first
    occurrences. *)
Definition first_occurrences (l : list string) : list string :=
  foldl (fun seen x => if bool_decide (x ∈ seen) then seen else seen ++ [x])
        [] l.

(** ** src/manager/comment-manager.ts *)

Definition COMMENT_IDENTIFIER : string := "<!-- bundle-stats-action -->".
Definition PROCESSING_IDENTIFIER : string :=
  "<!-- bundle-stats-action-processing -->".

(** [s.includes(sub)] on strings. *)
Fixpoint string_includes (s sub : string) : bool :=
  String.prefix sub s ||
  match s with
  | EmptyString => false
  | String _ s' => string_includes s' sub
  end.

(** What a call throws: an [Error] with its message, or another value. *)
Inductive Thrown :=
| ThrownError (message : string)
| ThrownOther.

Module Comment.
Record t := mk { id : Z; body : option string }.
End Comment.

Module CommentManager.

Definition handleApiError (thrown : Thrown) (message : string)
    : BundleStatsError.t :=
  match thrown with
  | ThrownError error_message =>
      if string_includes error_message "rate limit" then
        createError RATE_LIMIT_ERROR
          (message +:+ ": GitHub API rate limit exceeded") error
      else if string_includes error_message "Resource not accessible" then
        createError GITHUB_API_ERROR
          (message +:+ ": Insufficient permissions. Ensure GITHUB_TOKEN has 'pull-requests: write' permission")
          fatal
      else
        createError GITHUB_API_ERROR (message +:+ ": " +:+ error_message)
          error
  | ThrownOther =>
      createError GITHUB_API_ERROR (message +:+ ": " +:+ "Unknown error")
        error
  end.

Section Manager.
(** The outcomes of the calls to the GitHub API for the pull request:
    [issues.listComments], [issues.updateComment] and
    [issues.createComment], each the data it returns or what it throws. *)
Variable api_listComments : Thrown + list Comment.t.
Variable api_updateComment : Z -> string -> Thrown + Z.
Variable api_createComment : string -> Thrown + Z.

Definition listComments : BundleStatsError.t + list Comment.t :=
  match api_listComments with
  | inl thrown => inl (handleApiError thrown "Failed to list comments")
  | inr data => inr data
  end.

(** [comment.body?.includes(COMMENT_IDENTIFIER)] *)
Definition isBundleComment (comment : Comment.t) : bool :=
  match Comment.body comment with
  | Some body => string_includes body COMMENT_IDENTIFIER
  | None => false
  end.

Definition findComment : BundleStatsError.t + option Comment.t :=
  match listComments with
  | inl e => inl e
  | inr comments => inr (List.find isBundleComment comments)
  end.

(** The [catch] of [postComment]: a [BundleStatsError] caught there is an
    [Error] with its message. *)
Definition postComment (body : string) : BundleStatsError.t + Z :=
  match findComment with
  | inl e =>
      inl (handleApiError (ThrownError (BundleStatsError.message e))
             "Failed to post comment")
  | inr (Some existingComment) =>
      match api_updateComment (Comment.id existingComment) body with
      | inl thrown => inl (handleApiError thrown "Failed to post comment")
      | inr id => inr id
      end
  | inr None =>
      match api_createComment body with
      | inl thrown => inl (handleApiError thrown "Failed to post comment")
      | inr id => inr id
      end
  end.
End Manager.

End CommentManager.

(** ** [formatFileSize] on every finite number

    [formatFileSize] of src/utils/file-size.ts once more, on a rational
    [bytes] (every finite double is a rational) and with the value of
    [Math.floor(Math.log(absBytes) / Math.log(k))], which the code
    computes on doubles, as the parameter [floor_log].  The rest of the
    arithmetic is exact on doubles for a magnitude of one byte or more:
    [Math.pow(k, i)] is a power of two and dividing by it loses nothing.
    [formatFileSize] above is the instance on integers in which that value
    is the integer logarithm. *)

(** [SIZES[i]]: no entry under a negative index either. *)
Definition SIZES_at (i : Z) : option string :=
  if i <? 0 then None else SIZES !! Z.to_nat i.

Definition formatFileSize_with (floor_log : Q -> Z) (bytes : Q) : string :=
  if Qeq_bool bytes 0 then "0 B"
  else
    let negative := negb (Qle_bool 0 bytes) in
    let absBytes := Qabs bytes in
    let k := 1024%Q in
    let i := floor_log absBytes in
    let size := (absBytes / k ^ i)%Q in
    let unit := JS.template (SIZES_at i) in
    let formatted :=
      if i =? 0 then JS.show_int (JS.Math_round size) +:+ " " +:+ unit
      else if Qle_bool 100 size then
        JS.show_int (JS.Math_round size) +:+ " " +:+ unit
      else if Qle_bool 10 size then JS.toFixed 1 size +:+ " " +:+ unit
      else JS.toFixed 2 size +:+ " " +:+ unit in
    if negative then "-" +:+ formatted else formatted.

(** The integer logarithm in base 1024 of the whole part of [a]. *)
Definition integer_floor_log (a : Q) : Z := Z.log2 (Qfloor a) / 10.

(** * Properties *)

(** ** Strings *)

Lemma endsWith_cons (c : ascii) (s suffix : string) :
  JS.endsWith (String c s) suffix
  = String.eqb (String c s) suffix || JS.endsWith s suffix.
Proof. reflexivity. Qed.

Lemma endsWith_spec (s suffix : string) :
  JS.endsWith s suffix = true <-> ends_with s suffix.
Proof.
  unfold ends_with. induction s as [| c s IH].
  - change (JS.endsWith "" suffix) with (String.eqb "" suffix || false).
    rewrite orb_false_r, String.eqb_eq. split.
    + intros <-. exists ""%string. reflexivity.
    + intros [[| c p] H]; simpl in H; [exact H | discriminate].
  - rewrite endsWith_cons, orb_true_iff, String.eqb_eq, IH. split.
    + intros [<- | [p ->]].
      * exists ""%string. reflexivity.
      * exists (String c p). reflexivity.
    + intros [[| c' p] H]; simpl in H.
      * left. exact H.
      * right. injection H as _ ->. exists p. reflexivity.
Qed.

Lemma isBundleFile_spec (asset : Asset.t) :
  BundleAnalyzer.isBundleFile asset = true <-> ~ excluded asset.
Proof.
  unfold BundleAnalyzer.isBundleFile, excluded.
  rewrite !andb_true_iff, !negb_true_iff, <- !not_true_iff_false.
  rewrite !endsWith_spec, bool_decide_eq_true. tauto.
Qed.

Lemma isBundleFile_false (asset : Asset.t) :
  BundleAnalyzer.isBundleFile asset = false <-> excluded asset.
Proof.
  unfold BundleAnalyzer.isBundleFile, excluded.
  rewrite <- !endsWith_spec.
  destruct (JS.endsWith _ ".map"), (JS.endsWith _ ".LICENSE.txt");
    simpl; try case_bool_decide; simpl; intuition (discriminate || congruence).
Qed.

#[global] Instance excluded_dec (asset : Asset.t) : Decision (excluded asset).
Proof.
  destruct (BundleAnalyzer.isBundleFile asset) eqn:E.
  - right. apply isBundleFile_spec. exact E.
  - left. apply isBundleFile_false. exact E.
Defined.

Lemma filter_isBundleFile (assets : list Asset.t) :
  filter (fun asset => BundleAnalyzer.isBundleFile asset = true) assets
  = filter (fun asset => ~ excluded asset) assets.
Proof.
  apply list_filter_iff. intros asset. apply isBundleFile_spec.
Qed.

(** ** The stable sort *)

Section SortByKey.
Context {A : Type} (key : A -> Z) (compareFn : A -> A -> Z).
Hypothesis compareFn_key : forall a b, compareFn a b = key b - key a.

Lemma sort_insert_Permutation (x : A) (l : list A) :
  JS.sort_insert compareFn x l ≡ₚ x :: l.
Proof.
  induction l as [| y l IH]; simpl; [reflexivity |].
  destruct (compareFn x y <=? 0); [reflexivity |].
  rewrite IH. apply Permutation_swap.
Qed.

Lemma sort_Permutation (l : list A) : JS.sort compareFn l ≡ₚ l.
Proof.
  unfold JS.sort. induction l as [| x l IH]; simpl; [reflexivity |].
  rewrite sort_insert_Permutation, IH. reflexivity.
Qed.

Lemma sort_insert_sorted (x : A) (l : list A) :
  StronglySorted (fun a b => key b <= key a) l ->
  StronglySorted (fun a b => key b <= key a) (JS.sort_insert compareFn x l).
Proof.
  induction 1 as [| y l Hl IH Hy]; simpl.
  - repeat constructor.
  - rewrite compareFn_key. destruct (Z.leb_spec (key y - key x) 0) as [Hle | Hgt].
    + constructor; [constructor; assumption |].
      constructor; [lia |].
      eapply Forall_impl; [exact Hy |]. simpl. intros; lia.
    + constructor; [exact IH |].
      rewrite sort_insert_Permutation. constructor; [lia | exact Hy].
Qed.

Lemma sort_sorted (l : list A) :
  StronglySorted (fun a b => key b <= key a) (JS.sort compareFn l).
Proof.
  unfold JS.sort. induction l as [| x l IH]; simpl.
  - constructor.
  - apply sort_insert_sorted, IH.
Qed.

Lemma sort_insert_filter_key (s : Z) (x : A) (l : list A) :
  filter (fun a => key a = s) (JS.sort_insert compareFn x l)
  = filter (fun a => key a = s) (x :: l).
Proof.
  induction l as [| y l IH]; simpl; [reflexivity |].
  rewrite compareFn_key. destruct (Z.leb_spec (key y - key x) 0) as [Hle | Hgt];
    [reflexivity |].
  rewrite !filter_cons in *. rewrite IH.
  destruct (decide (key y = s)), (decide (key x = s)); try reflexivity; lia.
Qed.

(** Stability: the elements that share a key keep their order. *)
Lemma sort_stable (s : Z) (l : list A) :
  filter (fun a => key a = s) (JS.sort compareFn l)
  = filter (fun a => key a = s) l.
Proof.
  unfold JS.sort. induction l as [| x l IH]; simpl; [reflexivity |].
  rewrite sort_insert_filter_key, !filter_cons, IH. reflexivity.
Qed.
End SortByKey.

(** ** Rendering of numerals *)

Lemma string_app_cons (x : ascii) (a b : string) :
  String x a +:+ b = String x (a +:+ b).
Proof. reflexivity. Qed.

Lemma string_app_assoc (a b c : string) :
  (a +:+ b) +:+ c = a +:+ (b +:+ c).
Proof.
  induction a as [| x a IH]; [reflexivity |].
  rewrite !string_app_cons, IH. reflexivity.
Qed.

Lemma string_length_app (a b : string) :
  String.length (a +:+ b) = (String.length a + String.length b)%nat.
Proof.
  induction a as [| x a IH]; [reflexivity |].
  rewrite string_app_cons. simpl. rewrite IH. reflexivity.
Qed.

Lemma is_digit_not_separator (c : ascii) :
  is_digit c = true ->
  Ascii.eqb c " " = false /\ Ascii.eqb c "." = false.
Proof.
  intros H. split; apply Ascii.eqb_neq; intros ->; vm_compute in H;
    discriminate H.
Qed.

Lemma all_digits_app (a b : string) :
  all_digits a = true -> all_digits b = true -> all_digits (a +:+ b) = true.
Proof.
  intros Ha Hb. induction a as [| x a IH]; [exact Hb |].
  rewrite string_app_cons. simpl in *.
  apply andb_true_iff in Ha as [Hx Ha]. rewrite Hx, IH by exact Ha.
  reflexivity.
Qed.

Lemma all_digits_uint (d : Decimal.uint) :
  all_digits (NilEmpty.string_of_uint d) = true.
Proof.
  induction d as [| d IH | d IH | d IH | d IH | d IH | d IH | d IH | d IH
                  | d IH | d IH];
    cbn [NilEmpty.string_of_uint all_digits]; [reflexivity | ..];
    rewrite IH; reflexivity.
Qed.

Lemma all_digits_show_int (n : Z) : all_digits (JS.show_int n) = true.
Proof.
  unfold JS.show_int. destruct (N.to_uint (Z.to_N n)) as [| d | d | d | d | d
    | d | d | d | d | d] eqn:E; [reflexivity | ..];
    rewrite <- E; rewrite E; apply all_digits_uint.
Qed.

Lemma is_digit_digit (d : Z) : 0 <= d < 10 -> is_digit (JS.digit d) = true.
Proof.
  intros H.
  assert (Hd : d = 0 \/ d = 1 \/ d = 2 \/ d = 3 \/ d = 4 \/ d = 5 \/ d = 6
               \/ d = 7 \/ d = 8 \/ d = 9) by lia.
  repeat (destruct Hd as [-> | Hd]; [reflexivity |]). subst d. reflexivity.
Qed.

Lemma frac_digits_spec (f : nat) (r : Z) :
  all_digits (JS.frac_digits f r) = true
  /\ String.length (JS.frac_digits f r) = f.
Proof.
  revert r. induction f as [| f IH]; intros r; [split; reflexivity |].
  cbn [JS.frac_digits]. destruct (IH (r / 10)) as [Hd Hl]. split.
  - apply all_digits_app; [exact Hd |]. cbn [all_digits].
    rewrite is_digit_digit by (apply Z.mod_pos_bound; lia). reflexivity.
  - rewrite string_length_app, Hl. cbn [String.length]. lia.
Qed.

Lemma decimal_places_digits (ds rest : string) :
  all_digits ds = true ->
  decimal_places (ds +:+ rest) = decimal_places rest.
Proof.
  intros H. induction ds as [| c ds IH]; [reflexivity |].
  rewrite string_app_cons. simpl in *.
  apply andb_true_iff in H as [Hc H].
  destruct (is_digit_not_separator c Hc) as [-> ->]. apply IH, H.
Qed.

Lemma chars_before_space_digits (ds rest : string) :
  all_digits ds = true ->
  chars_before_space (ds +:+ String " " rest) = String.length ds.
Proof.
  intros H. induction ds as [| c ds IH]; [reflexivity |].
  rewrite string_app_cons. simpl in *.
  apply andb_true_iff in H as [Hc H].
  destruct (is_digit_not_separator c Hc) as [-> _]. rewrite IH by exact H.
  reflexivity.
Qed.

(** [toFixed f] writes exactly [f] digits after the point. *)
Lemma decimal_places_toFixed (f : nat) (x : Q) (u : string) :
  decimal_places (JS.toFixed f x +:+ " " +:+ u) = f.
Proof.
  unfold JS.toFixed. destruct f as [| f].
  - rewrite decimal_places_digits by apply all_digits_show_int. reflexivity.
  - rewrite !string_app_assoc.
    rewrite decimal_places_digits by apply all_digits_show_int.
    destruct (frac_digits_spec (S f)
      (Qfloor (x * inject_Z (10 ^ Z.of_nat (S f)) + (1 # 2))
       mod 10 ^ Z.of_nat (S f))) as [Hd Hl].
    change (decimal_places ("." +:+ ?t)) with (chars_before_space t).
    change (" " +:+ u) with (String " " u).
    rewrite chars_before_space_digits by exact Hd. exact Hl.
Qed.

Lemma Math_round_toFixed (x : Q) :
  JS.show_int (JS.Math_round x) = JS.toFixed 0 x.
Proof.
  unfold JS.toFixed, JS.Math_round. change (10 ^ Z.of_nat 0) with 1.
  rewrite Z.div_1_r. f_equal. apply Qfloor_comp.
  change (inject_Z 1) with 1%Q. rewrite Qmult_1_r. reflexivity.
Qed.

(** ** formatFileSize *)

Lemma formatFileSize_unfold (bytes : Z) :
  bytes <> 0 ->
  let i := unit_index bytes in
  let m := magnitude bytes in
  formatFileSize bytes
  = sign_text bytes
    +:+ (if i =? 0 then JS.toFixed 0 m
         else if Qle_bool 100 m then JS.toFixed 0 m
         else if Qle_bool 10 m then JS.toFixed 1 m
         else JS.toFixed 2 m)
    +:+ " " +:+ unit_text i.
Proof.
  intros Hnz i m. unfold formatFileSize, sign_text.
  destruct (Z.eqb_spec bytes 0) as [| _]; [contradiction |].
  cbv zeta. change (Z.log2 1024) with 10. fold (unit_index bytes).
  fold (magnitude bytes). fold i. fold m. fold (unit_text i).
  rewrite !Math_round_toFixed.
  destruct (bytes <? 0); destruct (i =? 0); [| | reflexivity | ];
    try reflexivity;
    destruct (Qle_bool 100 m); try reflexivity;
    destruct (Qle_bool 10 m); reflexivity.
Qed.

Lemma formatFileSize_chosen (bytes : Z) :
  bytes <> 0 ->
  formatFileSize bytes
  = sign_text bytes
    +:+ JS.toFixed (chosen_decimals (unit_index bytes) (magnitude bytes))
          (magnitude bytes)
    +:+ " " +:+ unit_text (unit_index bytes).
Proof.
  intros Hnz. rewrite (formatFileSize_unfold bytes Hnz). cbv zeta.
  unfold chosen_decimals.
  destruct (unit_index bytes =? 0); [reflexivity |].
  destruct (Qle_bool 100 (magnitude bytes)); [reflexivity |].
  destruct (Qle_bool 10 (magnitude bytes)); reflexivity.
Qed.

Lemma chosen_decimals_rule (i : Z) (m : Q) :
  precision_rule i m (chosen_decimals i m).
Proof.
  unfold precision_rule, chosen_decimals.
  destruct (Z.eqb_spec i 0) as [Hi | Hi].
  { split; [| split]; [reflexivity | contradiction | contradiction]. }
  destruct (Qle_bool 100 m) eqn:H100.
  { apply Qle_bool_iff in H100. split; [| split].
    - reflexivity.
    - intros _ [_ Hlt]. exfalso. exact (Qlt_not_le _ _ Hlt H100).
    - intros _ Hlt. exfalso. apply (Qlt_not_le _ _ Hlt).
      apply Qle_trans with (y := 100%Q); [discriminate | exact H100]. }
  assert (Hn100 : ~ (100 <= m)%Q).
  { intros H. apply Qle_bool_iff in H. congruence. }
  destruct (Qle_bool 10 m) eqn:H10.
  { apply Qle_bool_iff in H10. split; [| split].
    - intros [H | H]; contradiction.
    - reflexivity.
    - intros _ Hlt. exfalso. exact (Qlt_not_le _ _ Hlt H10). }
  assert (Hn10 : ~ (10 <= m)%Q).
  { intros H. apply Qle_bool_iff in H. congruence. }
  split; [| split].
  - intros [H | H]; contradiction.
  - intros _ [H _]. contradiction.
  - reflexivity.
Qed.

Lemma decimal_places_sign (bytes : Z) (s : string) :
  decimal_places (sign_text bytes +:+ s) = decimal_places s.
Proof. unfold sign_text. destruct (bytes <? 0); reflexivity. Qed.

Lemma decimal_places_formatFileSize (bytes : Z) :
  bytes <> 0 ->
  decimal_places (formatFileSize bytes)
  = chosen_decimals (unit_index bytes) (magnitude bytes).
Proof.
  intros Hnz. rewrite (formatFileSize_chosen bytes Hnz).
  rewrite decimal_places_sign. apply decimal_places_toFixed.
Qed.

(** The unit index is the one for which the magnitude lies in [1, 1024). *)
Lemma unit_index_bounds (bytes : Z) :
  bytes <> 0 ->
  0 <= unit_index bytes
  /\ 1024 ^ unit_index bytes <= Z.abs bytes < 1024 ^ (unit_index bytes + 1).
Proof.
  intros Hnz. unfold unit_index.
  assert (Ha : 0 < Z.abs bytes) by lia.
  pose proof (Z.log2_nonneg (Z.abs bytes)) as Hl.
  pose proof (Z.log2_spec _ Ha) as [Hlo Hhi].
  set (l := Z.log2 (Z.abs bytes)) in *.
  assert (Hi : 0 <= l / 10) by (apply Z.div_pos; lia).
  assert (Hdiv : 10 * (l / 10) <= l < 10 * (l / 10) + 10).
  { pose proof (Z.div_mod l 10 ltac:(lia)).
    pose proof (Z.mod_pos_bound l 10 ltac:(lia)). lia. }
  split; [exact Hi |].
  change 1024 with (2 ^ 10). rewrite <- !Z.pow_mul_r by lia. split.
  - apply Z.le_trans with (m := 2 ^ l); [| exact Hlo].
    apply Z.pow_le_mono_r; lia.
  - apply Z.lt_le_trans with (m := 2 ^ Z.succ l); [exact Hhi |].
    apply Z.pow_le_mono_r; lia.
Qed.

Lemma magnitude_bounds (bytes : Z) :
  bytes <> 0 -> (1 <= magnitude bytes)%Q /\ (magnitude bytes < 1024)%Q.
Proof.
  intros Hnz. destruct (unit_index_bounds bytes Hnz) as (Hi & Hlo & Hhi).
  unfold magnitude.
  assert (Hk : 0 < 1024 ^ unit_index bytes) by (apply Z.pow_pos_nonneg; lia).
  assert (HkQ : (0 < inject_Z (1024 ^ unit_index bytes))%Q).
  { change 0%Q with (inject_Z 0). rewrite <- Zlt_Qlt. exact Hk. }
  split.
  - apply Qle_shift_div_l; [exact HkQ |]. rewrite Qmult_1_l.
    rewrite <- Zle_Qle. exact Hlo.
  - apply Qlt_shift_div_r; [exact HkQ |].
    change 1024%Q with (inject_Z 1024). rewrite <- inject_Z_mult.
    rewrite <- Zlt_Qlt. rewrite Z.pow_add_r in Hhi by lia. lia.
Qed.

(** *** The precision rule, whatever the doubles give for the logarithm *)

Lemma Qeq_bool_of_magnitude (bytes : Q) :
  (1 <= Qabs bytes)%Q -> Qeq_bool bytes 0 = false.
Proof.
  intros H. destruct (Qeq_bool bytes 0) eqn:E; [| reflexivity].
  exfalso. apply Qeq_bool_eq in E. rewrite E in H.
  apply (Qle_not_lt _ _ H). reflexivity.
Qed.

Lemma formatFileSize_with_chosen (floor_log : Q -> Z) (bytes : Q) :
  Qeq_bool bytes 0 = false ->
  let i := floor_log (Qabs bytes) in
  let m := (Qabs bytes / 1024 ^ i)%Q in
  formatFileSize_with floor_log bytes
  = (if Qle_bool 0 bytes then "" else "-")
    +:+ JS.toFixed (chosen_decimals i m) m
    +:+ " " +:+ JS.template (SIZES_at i).
Proof.
  intros Hnz i m. unfold formatFileSize_with. rewrite Hnz. cbv zeta.
  fold i. fold m. rewrite !Math_round_toFixed. unfold chosen_decimals.
  destruct (Qle_bool 0 bytes); simpl negb; cbv iota;
    destruct (i =? 0); try reflexivity;
    destruct (Qle_bool 100 m); try reflexivity;
    destruct (Qle_bool 10 m); reflexivity.
Qed.

Lemma decimal_places_formatFileSize_with (floor_log : Q -> Z) (bytes : Q) :
  Qeq_bool bytes 0 = false ->
  decimal_places (formatFileSize_with floor_log bytes)
  = chosen_decimals (floor_log (Qabs bytes))
      (Qabs bytes / 1024 ^ floor_log (Qabs bytes))%Q.
Proof.
  intros Hnz. rewrite (formatFileSize_with_chosen floor_log bytes Hnz).
  cbv zeta. destruct (Qle_bool 0 bytes).
  - change ("" +:+ ?s) with s. apply decimal_places_toFixed.
  - rewrite string_app_cons. cbn [decimal_places].
    change ("" +:+ ?s) with s. apply decimal_places_toFixed.
Qed.

Lemma toFixed_comp (f : nat) (x y : Q) :
  x == y -> JS.toFixed f x = JS.toFixed f y.
Proof.
  intros H. unfold JS.toFixed.
  replace (Qfloor (y * inject_Z (10 ^ Z.of_nat f) + (1 # 2)))
    with (Qfloor (x * inject_Z (10 ^ Z.of_nat f) + (1 # 2)));
    [reflexivity |].
  apply Qfloor_comp. rewrite H. reflexivity.
Qed.

(** [formatFileSize] is [formatFileSize_with] on the integers, with the
    integer logarithm for [floor_log]. *)
Lemma formatFileSize_instance (bytes : Z) :
  formatFileSize bytes
  = formatFileSize_with integer_floor_log (inject_Z bytes).
Proof.
  destruct (Z.eq_dec bytes 0) as [-> | Hnz]; [reflexivity |].
  assert (HnzQ : Qeq_bool (inject_Z bytes) 0 = false).
  { destruct (Qeq_bool (inject_Z bytes) 0) eqn:E; [| reflexivity].
    apply Qeq_bool_eq in E. unfold Qeq in E. simpl in E. lia. }
  rewrite (formatFileSize_chosen bytes Hnz).
  rewrite (formatFileSize_with_chosen integer_floor_log _ HnzQ). cbv zeta.
  change (Qabs (inject_Z bytes)) with (inject_Z (Z.abs bytes)).
  assert (Hi : integer_floor_log (inject_Z (Z.abs bytes)) = unit_index bytes).
  { unfold integer_floor_log, unit_index. rewrite Qfloor_Z. reflexivity. }
  rewrite Hi.
  destruct (unit_index_bounds bytes Hnz) as (Hpos & _).
  assert (Hm : (inject_Z (Z.abs bytes) / 1024 ^ unit_index bytes)%Q
               == magnitude bytes).
  { unfold magnitude. rewrite Zpower_Qpower by exact Hpos. reflexivity. }
  assert (Hd : chosen_decimals (unit_index bytes)
                 (inject_Z (Z.abs bytes) / 1024 ^ unit_index bytes)%Q
               = chosen_decimals (unit_index bytes) (magnitude bytes)).
  { unfold chosen_decimals. rewrite !Hm. reflexivity. }
  rewrite Hd, (toFixed_comp _ _ _ Hm).
  assert (Hu : SIZES_at (unit_index bytes) = SIZES !! Z.to_nat (unit_index bytes)).
  { unfold SIZES_at. destruct (Z.ltb_spec (unit_index bytes) 0); [lia |].
    reflexivity. }
  rewrite Hu. fold (unit_text (unit_index bytes)). f_equal.
  assert (Hs : Qle_bool 0 (inject_Z bytes) = (0 <=? bytes)).
  { unfold Qle_bool. simpl. f_equal. lia. }
  rewrite Hs. unfold sign_text.
  destruct (Z.leb_spec 0 bytes), (Z.ltb_spec bytes 0); try lia; reflexivity.
Qed.

(** C6. Whatever [Math.floor(Math.log(absBytes) / Math.log(k))] comes to
    on doubles, for a count of one byte or more, of either sign, whole or
    not, [formatFileSize] writes the scaled magnitude with the number of
    decimal places the precision rule gives (none for bytes or a
    magnitude of 100 or more, one from 10 up to 100, two below 10),
    rounded to that place, between the sign and the unit; 0 is written
    "0 B"; and where that value is 1 at 1024 and 2 at 1572864, as it is
    on doubles, 1024, -1024 and 1572864 are written "1.00 KB", "-1.00 KB"
    and "1.50 MB". *)
Theorem formatFileSize_precision (floor_log : Q -> Z) :
  (forall bytes : Q,
     (1 <= Qabs bytes)%Q ->
     let i := floor_log (Qabs bytes) in
     let m := (Qabs bytes / 1024 ^ i)%Q in
     let d := decimal_places (formatFileSize_with floor_log bytes) in
     precision_rule i m d
     /\ formatFileSize_with floor_log bytes
        = (if Qle_bool 0 bytes then "" else "-")
          +:+ JS.toFixed d m +:+ " " +:+ JS.template (SIZES_at i))
  /\ formatFileSize_with floor_log 0 = "0 B"%string
  /\ (floor_log 1024%Q = 1 ->
      formatFileSize_with floor_log 1024 = "1.00 KB"%string
      /\ formatFileSize_with floor_log (-1024) = "-1.00 KB"%string)
  /\ (floor_log 1572864%Q = 2 ->
      formatFileSize_with floor_log 1572864 = "1.50 MB"%string).
Proof.
  split; [| split; [reflexivity | split]].
  - intros bytes Hone i m d.
    pose proof (Qeq_bool_of_magnitude bytes Hone) as Hnz.
    unfold d, i, m.
    rewrite (decimal_places_formatFileSize_with floor_log bytes Hnz). split.
    + apply chosen_decimals_rule.
    + apply (formatFileSize_with_chosen floor_log bytes Hnz).
  - intros H. split.
    + rewrite formatFileSize_with_chosen by reflexivity. cbv zeta.
      change (Qabs 1024) with 1024%Q. rewrite H. vm_compute. reflexivity.
    + rewrite formatFileSize_with_chosen by reflexivity. cbv zeta.
      change (Qabs (-1024)) with 1024%Q. rewrite H. vm_compute. reflexivity.
  - intros H. rewrite formatFileSize_with_chosen by reflexivity. cbv zeta.
    change (Qabs 1572864) with 1572864%Q. rewrite H. vm_compute. reflexivity.
Qed.

Lemma formatFileSize_precision_witness :
  (1 <= Qabs (694680242521899 # 549755813888))%Q
  /\ integer_floor_log 1024%Q = 1
  /\ integer_floor_log 1572864%Q = 2
  /\ precision_rule
       (integer_floor_log (Qabs (694680242521899 # 549755813888)))
       (Qabs (694680242521899 # 549755813888)
        / 1024 ^ integer_floor_log (Qabs (694680242521899 # 549755813888)))%Q
       (decimal_places
          (formatFileSize_with integer_floor_log
             (694680242521899 # 549755813888)))
  /\ formatFileSize_with integer_floor_log (694680242521899 # 549755813888)
     = "1.23 KB"%string
  /\ formatFileSize_with integer_floor_log 1024 = "1.00 KB"%string
  /\ formatFileSize_with integer_floor_log 1572864 = "1.50 MB"%string.
Proof.
  assert (Hone : (1 <= Qabs (694680242521899 # 549755813888))%Q)
    by (unfold Qle; simpl; lia).
  assert (H1024 : integer_floor_log 1024%Q = 1) by reflexivity.
  assert (H1572864 : integer_floor_log 1572864%Q = 2) by reflexivity.
  destruct (formatFileSize_precision integer_floor_log)
    as (Hrule & _ & Hkb & Hmb).
  split; [exact Hone |]. split; [exact H1024 |]. split; [exact H1572864 |].
  split; [exact (proj1 (Hrule (694680242521899 # 549755813888)%Q Hone)) |].
  split; [vm_compute; reflexivity |].
  split; [exact (proj1 (Hkb H1024)) | exact (Hmb H1572864)].
Defined.

(** Past the last unit: the index has no entry in [SIZES]. *)
Lemma formatFileSize_beyond_GB (bytes : Z) :
  1024 ^ 4 <= Z.abs bytes ->
  unit_text (unit_index bytes) = "undefined"%string
  /\ ends_with (formatFileSize bytes) " undefined".
Proof.
  intros Hbig.
  assert (Hnz : bytes <> 0) by lia.
  assert (Hi : 4 <= unit_index bytes).
  { unfold unit_index. apply Z.div_le_lower_bound; [lia |].
    apply Z.log2_le_pow2; lia. }
  assert (Hu : unit_text (unit_index bytes) = "undefined"%string).
  { unfold unit_text.
    replace (SIZES !! Z.to_nat (unit_index bytes)) with (@None string);
      [reflexivity |].
    symmetry. apply lookup_ge_None. simpl. lia. }
  split; [exact Hu |].
  rewrite (formatFileSize_chosen bytes Hnz), Hu.
  rewrite <- string_app_assoc. eexists. reflexivity.
Qed.

(** C7. A byte count past the last unit is not shown in GB: for
    2 * 1024^4 the unit index 4 has no entry in [SIZES], the text of the
    unit is "undefined" and the result is "2.00 undefined". *)
Theorem formatFileSize_two_times_1024_pow_4 :
  formatFileSize (2 * 1024 ^ 4) = "2.00 undefined"%string
  /\ JS.endsWith (formatFileSize (2 * 1024 ^ 4)) "GB" = false.
Proof. vm_compute. split; reflexivity. Qed.

(** ** Filtering and ordering of the assets *)

Lemma foldl_add_sizes (l : list AnalyzedAsset.t) (acc : Z) :
  foldl (fun sum asset => sum + AnalyzedAsset.size asset) acc l
  = acc + foldr (fun asset sum => AnalyzedAsset.size asset + sum) 0 l.
Proof.
  revert acc. induction l as [| x l IH]; intros acc; simpl.
  - lia.
  - rewrite IH. lia.
Qed.

Lemma sum_analyzed_Permutation (l1 l2 : list AnalyzedAsset.t) :
  l1 ≡ₚ l2 ->
  foldr (fun asset sum => AnalyzedAsset.size asset + sum) 0 l1
  = foldr (fun asset sum => AnalyzedAsset.size asset + sum) 0 l2.
Proof.
  induction 1; simpl; lia.
Qed.


Lemma analyzeAssets_unfold (assets : list Asset.t) (threshold : Z)
    (mapping : gmap string (list string)) :
  BundleAnalyzer.analyzeAssets assets threshold mapping
  = JS.sort BundleAnalyzer.bySizeDescending
      (map (BundleAnalyzer.analyzeAsset threshold mapping)
         (filter (fun asset => ~ excluded asset) assets)).
Proof.
  unfold BundleAnalyzer.analyzeAssets. rewrite filter_isBundleFile.
  reflexivity.
Qed.

Lemma analyzeAssets_Permutation (assets : list Asset.t) (threshold : Z)
    (mapping : gmap string (list string)) :
  BundleAnalyzer.analyzeAssets assets threshold mapping
  ≡ₚ map (BundleAnalyzer.analyzeAsset threshold mapping)
       (filter (fun asset => ~ excluded asset) assets).
Proof. rewrite analyzeAssets_unfold. apply sort_Permutation. Qed.




(** C4. The assets of the result are in descending order of size, and
    among the reportable assets those of one size keep the order they have
    in the manifest. *)
Theorem analyze_sorted_stable (stats : WebpackStats.t) (config : Config.t) :
  let result := BundleAnalyzer.analyze stats config in
  let reportable :=
    map (BundleAnalyzer.analyzeAsset (Config.bundleSizeThreshold config)
           (BundleAnalyzer.buildChunkMapping stats))
      (filter (fun asset => ~ excluded asset) (WebpackStats.assets stats)) in
  descending_by_size (AnalysisResult.assets result)
  /\ AnalysisResult.assets result ≡ₚ reportable
  /\ (forall s, of_size s (AnalysisResult.assets result)
                = of_size s reportable).
Proof.
  intros result reportable.
  assert (Hres : AnalysisResult.assets result
                 = JS.sort BundleAnalyzer.bySizeDescending reportable)
    by apply analyzeAssets_unfold.
  rewrite Hres. split; [| split].
  - apply (sort_sorted AnalyzedAsset.size). reflexivity.
  - apply sort_Permutation.
  - intros s. apply (sort_stable AnalyzedAsset.size). reflexivity.
Qed.

(** ** Chunk attribution *)

Lemma includes_spec (l : list string) (x : string) :
  JS.includes l x = true <-> x ∈ l.
Proof.
  unfold JS.includes. induction l as [| y l IH]; simpl.
  - split; [discriminate | intros H; inversion H].
  - rewrite orb_true_iff, String.eqb_eq, IH, elem_of_cons. reflexivity.
Qed.

Lemma push_new_NoDup (existing : list string) (name : string) :
  NoDup existing -> NoDup (BundleAnalyzer.push_new existing name).
Proof.
  intros Hnd. unfold BundleAnalyzer.push_new.
  destruct (JS.includes existing name) eqn:E; simpl; [exact Hnd |].
  apply NoDup_app. split; [exact Hnd |]. split; [| apply NoDup_singleton].
  intros x Hx Hx'. apply list_elem_of_singleton in Hx'. subst x.
  apply includes_spec in Hx. congruence.
Qed.

Lemma foldl_push_new_NoDup (names existing : list string) :
  NoDup existing -> NoDup (foldl BundleAnalyzer.push_new existing names).
Proof.
  revert existing. induction names as [| n names IH]; intros existing Hnd;
    simpl; [exact Hnd |].
  apply IH, push_new_NoDup, Hnd.
Qed.

Lemma get_or_empty_NoDup (fresh : list string)
    (mapping : gmap string (list string)) (key : string) :
  names_distinct fresh mapping ->
  NoDup (BundleAnalyzer.get_or_empty mapping key).
Proof.
  intros H. unfold BundleAnalyzer.get_or_empty.
  destruct (mapping !! key) as [names |] eqn:E; simpl.
  - apply (H key names E).
  - apply NoDup_nil_2.
Qed.

Lemma names_distinct_insert (mapping : gmap string (list string))
    (key : string) (names : list string) :
  names_distinct [] mapping -> NoDup names ->
  names_distinct [] (<[key := names]> mapping).
Proof.
  intros H Hnd k l. rewrite lookup_insert. case_decide.
  - intros [= <-]. split; [exact Hnd |]. intros c Hc. inversion Hc.
  - apply H.
Qed.

Lemma addChunk_names_distinct (mapping : gmap string (list string))
    (chunk : Chunk.t) :
  names_distinct [] mapping ->
  names_distinct [] (BundleAnalyzer.addChunk mapping chunk).
Proof.
  unfold BundleAnalyzer.addChunk.
  destruct (Chunk.files chunk) as [files |]; [| auto].
  revert mapping. induction files as [| file files IH]; intros mapping H;
    simpl; [exact H |].
  apply IH, names_distinct_insert; [exact H |].
  apply foldl_push_new_NoDup, (get_or_empty_NoDup [] mapping file H).
Qed.

Lemma addNamedChunkGroup_names_distinct
    (mapping : gmap string (list string)) (entry : string * ChunkGroup.t) :
  names_distinct [] mapping ->
  names_distinct [] (BundleAnalyzer.addNamedChunkGroup mapping entry).
Proof.
  destruct entry as [groupName group]. unfold BundleAnalyzer.addNamedChunkGroup.
  generalize (ChunkGroup.assets group) as assets. intros assets.
  revert mapping. induction assets as [| asset assets IH]; intros mapping H;
    simpl; [exact H |].
  apply IH, names_distinct_insert; [exact H |].
  apply push_new_NoDup, (get_or_empty_NoDup [] mapping asset H).
Qed.

Lemma foldl_preserves {A B : Type} (P : A -> Prop) (f : A -> B -> A)
    (l : list B) (a : A) :
  (forall a b, P a -> P (f a b)) -> P a -> P (foldl f a l).
Proof.
  intros Hstep. revert a. induction l as [| b l IH]; intros a Ha; simpl;
    [exact Ha |].
  apply IH, Hstep, Ha.
Qed.

(** The first source, one chunk: the name [chunkName] is new to every list
    and the chunk lists no asset twice. *)
Lemma addAssetsByChunkName_names_distinct (fresh : list string)
    (mapping : gmap string (list string)) (chunkName : string)
    (assets : string + list string) :
  chunkName ∉ fresh ->
  NoDup (entry_assets assets) ->
  names_distinct (chunkName :: fresh) mapping ->
  names_distinct fresh
    (BundleAnalyzer.addAssetsByChunkName mapping (chunkName, assets)).
Proof.
  intros Hfresh Hnd Hmap. unfold BundleAnalyzer.addAssetsByChunkName.
  fold (entry_assets assets).
  assert (Hinv : forall key names, mapping !! key = Some names ->
            NoDup names /\ (forall c, c ∈ fresh -> c ∉ names)
            /\ (key ∈ entry_assets assets -> chunkName ∉ names)).
  { intros key names Hk. destruct (Hmap key names Hk) as [H1 H2].
    split; [exact H1 |]. split.
    - intros c Hc. apply H2. right; exact Hc.
    - intros _. apply H2. left. }
  clear Hmap. revert mapping Hinv.
  induction (entry_assets assets) as [| asset rest IH]; intros mapping Hinv.
  - simpl. intros key names Hk. destruct (Hinv key names Hk) as (H1 & H2 & _).
    split; assumption.
  - apply NoDup_cons in Hnd as [Hnotin Hnd]. simpl. apply IH; [exact Hnd |].
    intros key names. rewrite lookup_insert. case_decide as Hkey.
    + subst key. intros [= <-]. unfold BundleAnalyzer.get_or_empty.
      destruct (mapping !! asset) as [existing |] eqn:E; simpl.
      * destruct (Hinv asset existing E) as (H1 & H2 & H3).
        specialize (H3 ltac:(left)).
        split; [| split].
        -- apply NoDup_app. split; [exact H1 |].
           split; [| apply NoDup_singleton].
           intros x Hx Hx'. apply list_elem_of_singleton in Hx'. subst x.
           contradiction.
        -- intros c Hc. rewrite elem_of_app, list_elem_of_singleton.
           intros [Hin | ->]; [exact (H2 c Hc Hin) | contradiction].
        -- intros Hin. contradiction.
      * split; [apply NoDup_singleton | split].
        -- intros c Hc. rewrite list_elem_of_singleton. intros ->.
           contradiction.
        -- intros Hin. contradiction.
    + intros Hk. destruct (Hinv key names Hk) as (H1 & H2 & H3).
      split; [exact H1 |]. split; [exact H2 |].
      intros Hin. apply H3. right; exact Hin.
Qed.

Lemma assetsByChunkName_names_distinct
    (entries : list (string * (string + list string)))
    (mapping : gmap string (list string)) :
  NoDup (map fst entries) ->
  Forall (fun entry => NoDup (entry_assets (snd entry))) entries ->
  names_distinct (map fst entries) mapping ->
  names_distinct []
    (foldl BundleAnalyzer.addAssetsByChunkName mapping entries).
Proof.
  revert mapping.
  induction entries as [| [chunkName assets] entries IH];
    intros mapping Hkeys Hlists Hmap; simpl; [exact Hmap |].
  apply NoDup_cons in Hkeys as [Hnotin Hkeys].
  apply Forall_cons in Hlists as [Hl Hlists].
  apply IH; [exact Hkeys | exact Hlists |].
  apply addAssetsByChunkName_names_distinct; assumption.
Qed.

(** Where no chunk of [assetsByChunkName] lists an asset twice, no asset
    is given a chunk name twice. *)
Lemma buildChunkMapping_NoDup (stats : WebpackStats.t) (asset : string) :
  (forall entries, WebpackStats.assetsByChunkName stats = Some entries ->
     NoDup (map fst entries)
     /\ Forall (fun entry => NoDup (entry_assets (snd entry))) entries) ->
  NoDup (BundleAnalyzer.get_or_empty
           (BundleAnalyzer.buildChunkMapping stats) asset).
Proof.
  intros Hfirst. apply (get_or_empty_NoDup []).
  unfold BundleAnalyzer.buildChunkMapping.
  set (m1 := match WebpackStats.assetsByChunkName stats with
             | Some entries =>
                 foldl BundleAnalyzer.addAssetsByChunkName ∅ entries
             | None => ∅
             end).
  assert (H1 : names_distinct [] m1).
  { unfold m1. destruct (WebpackStats.assetsByChunkName stats) as [entries |].
    - destruct (Hfirst entries eq_refl) as [Hk Hl].
      apply assetsByChunkName_names_distinct; [exact Hk | exact Hl |].
      intros key names Hlook. rewrite lookup_empty in Hlook. discriminate.
    - intros key names Hlook. rewrite lookup_empty in Hlook. discriminate. }
  set (m2 := match WebpackStats.chunks stats with
             | Some chunks => foldl BundleAnalyzer.addChunk m1 chunks
             | None => m1
             end).
  assert (H2 : names_distinct [] m2).
  { unfold m2. destruct (WebpackStats.chunks stats) as [chunks |];
      [| exact H1].
    apply foldl_preserves; [apply addChunk_names_distinct | exact H1]. }
  destruct (WebpackStats.namedChunkGroups stats) as [groups |]; [| exact H2].
  apply foldl_preserves; [apply addNamedChunkGroup_names_distinct | exact H2].
Qed.

(** C5. The first source pushes the chunk name without looking at the
    names already attributed: on a manifest whose chunk "main" lists
    "a.js" twice, "a.js" gets the chunk names ["main"; "main"]. *)
Theorem buildChunkMapping_repeated_asset :
  BundleAnalyzer.get_or_empty
    (BundleAnalyzer.buildChunkMapping repeated_asset_stats) "a.js"
  = ["main"; "main"]%string
  /\ map AnalyzedAsset.chunkNames
       (AnalysisResult.assets
          (BundleAnalyzer.analyze repeated_asset_stats scenario_config))
     = [ ["main"; "main"]%string ]
  /\ ~ NoDup ["main"; "main"]%string.
Proof.
  split; [vm_compute; reflexivity |]. split; [vm_compute; reflexivity |].
  intros H. apply NoDup_cons in H as [H _]. apply H. left.
Qed.

(** ** The threshold verdict *)

Section Verdict.
Variables (stats : WebpackStats.t) (config : Config.t).

Let result := BundleAnalyzer.analyze stats config.

Lemma individualExceeded_length :
    length (Threshold.individualExceeded (AnalysisResult.threshold result))
    = Summary.exceededFileCount (AnalysisResult.summary result).
Proof. unfold result, BundleAnalyzer.analyze; simpl. apply length_map. Qed.

Lemma anyExceeded_unfold :
    Threshold.anyExceeded (AnalysisResult.threshold result)
    = (0 <? Summary.exceededFileCount (AnalysisResult.summary result))%nat
      || Threshold.totalExceeded (AnalysisResult.threshold result).
Proof.
    rewrite <- individualExceeded_length. reflexivity.
Qed.
End Verdict.

Lemma analyzed_exceeded_iff (stats : WebpackStats.t) (config : Config.t)
    (x : AnalyzedAsset.t) :
  x ∈ AnalysisResult.assets (BundleAnalyzer.analyze stats config) ->
  (AnalyzedAsset.exceeded x = true
   <-> Config.bundleSizeThreshold config < AnalyzedAsset.size x).
Proof.
  intros Hin.
  change (AnalysisResult.assets (BundleAnalyzer.analyze stats config))
    with (BundleAnalyzer.analyzeAssets (WebpackStats.assets stats)
            (Config.bundleSizeThreshold config)
            (BundleAnalyzer.buildChunkMapping stats)) in Hin.
  rewrite analyzeAssets_Permutation in Hin.
  apply list_elem_of_fmap in Hin as (asset & -> & _). simpl.
  apply Z.ltb_lt.
Qed.

Lemma length_positive_iff {A : Type} (l : list A) :
  (0 <? length l)%nat = true <-> exists x, x ∈ l.
Proof.
  destruct l as [| x l]; simpl.
  - split; [discriminate | intros [x Hx]; inversion Hx].
  - split; [intros _; exists x; left | reflexivity].
Qed.

(** C1. The verdict of [analyze] satisfies
    [anyExceeded == (individualExceeded.length > 0) || totalExceeded],
    for every manifest and every config; so [anyExceeded] holds exactly
    when an asset of the result is over the individual threshold or the
    total is over the total threshold. *)
Theorem analyze_anyExceeded_invariant (stats : WebpackStats.t)
    (config : Config.t) :
  let result := BundleAnalyzer.analyze stats config in
  let verdict := AnalysisResult.threshold result in
  Threshold.anyExceeded verdict
  = (0 <? length (Threshold.individualExceeded verdict))%nat
    || Threshold.totalExceeded verdict
  /\ (Threshold.anyExceeded verdict = true
      <-> (exists x, x ∈ AnalysisResult.assets result
                     /\ Config.bundleSizeThreshold config
                        < AnalyzedAsset.size x)
          \/ Config.totalSizeThreshold config
             < Summary.totalSize (AnalysisResult.summary result)).
Proof.
  intros result verdict.
  assert (Hany : Threshold.anyExceeded verdict
                 = (0 <? length (Threshold.individualExceeded verdict))%nat
                   || Threshold.totalExceeded verdict) by reflexivity.
  split; [exact Hany |].
  rewrite Hany, orb_true_iff.
  change (Threshold.totalExceeded verdict)
    with (Config.totalSizeThreshold config
          <? Summary.totalSize (AnalysisResult.summary result)).
  rewrite Z.ltb_lt.
  change (Threshold.individualExceeded verdict)
    with (map AnalyzedAsset.name
            (filter (fun asset => AnalyzedAsset.exceeded asset = true)
               (AnalysisResult.assets result))).
  rewrite length_map, length_positive_iff.
  assert (Hex : (exists x, x ∈ filter
                   (fun asset => AnalyzedAsset.exceeded asset = true)
                   (AnalysisResult.assets result))
                <-> (exists x, x ∈ AnalysisResult.assets result
                       /\ Config.bundleSizeThreshold config
                          < AnalyzedAsset.size x)).
  { split; intros [x Hx]; exists x.
    - apply list_elem_of_filter in Hx as [He Hin]. split; [exact Hin |].
      apply (analyzed_exceeded_iff stats config x Hin), He.
    - destruct Hx as [Hin Hlt]. apply list_elem_of_filter.
      split; [| exact Hin].
      apply (analyzed_exceeded_iff stats config x Hin), Hlt. }
  rewrite Hex. reflexivity.
Qed.

(** C10. The summary's [exceededFileCount], the length of the verdict's
    [individualExceeded] and the number of assets of the result whose
    [exceeded] flag is set are the same number. *)
Theorem analyze_exceeded_counts_agree (stats : WebpackStats.t)
    (config : Config.t) :
  let result := BundleAnalyzer.analyze stats config in
  Summary.exceededFileCount (AnalysisResult.summary result)
  = length (Threshold.individualExceeded (AnalysisResult.threshold result))
  /\ Summary.exceededFileCount (AnalysisResult.summary result)
     = length (filter (fun asset => AnalyzedAsset.exceeded asset = true)
                 (AnalysisResult.assets result))
  /\ Threshold.individualExceeded (AnalysisResult.threshold result)
     = map AnalyzedAsset.name
         (filter (fun asset => AnalyzedAsset.exceeded asset = true)
            (AnalysisResult.assets result)).
Proof.
  intros result. split; [| split].
  - symmetry. apply individualExceeded_length.
  - reflexivity.
  - reflexivity.
Qed.

(** ** Badge colours *)

Lemma palettes_distinct :
  BadgeGenerator.error <> BadgeGenerator.warning
  /\ BadgeGenerator.error <> BadgeGenerator.success
  /\ BadgeGenerator.warning <> BadgeGenerator.success.
Proof. repeat split; discriminate. Qed.

(** C9. On a result of [analyze] the colour selection never takes the
    warning branch: it returns the error palette exactly when [anyExceeded]
    holds and the success palette otherwise, because a positive
    [exceededFileCount] already makes [anyExceeded] true. *)
Theorem getColors_never_warning (stats : WebpackStats.t) (config : Config.t) :
  let result := BundleAnalyzer.analyze stats config in
  let any := Threshold.anyExceeded (AnalysisResult.threshold result) in
  BadgeGenerator.getColors result <> BadgeGenerator.warning
  /\ (BadgeGenerator.getColors result = BadgeGenerator.error <-> any = true)
  /\ (BadgeGenerator.getColors result = BadgeGenerator.success <-> any = false)
  /\ ((0 <? Summary.exceededFileCount (AnalysisResult.summary result))%nat
      = true -> any = true).
Proof.
  intros result any.
  assert (Hany : any
    = (0 <? Summary.exceededFileCount (AnalysisResult.summary result))%nat
      || Threshold.totalExceeded (AnalysisResult.threshold result))
    by apply anyExceeded_unfold.
  unfold BadgeGenerator.getColors. fold any.
  destruct any.
  - repeat split; try discriminate; try reflexivity; intros _; reflexivity.
  - symmetry in Hany. apply orb_false_elim in Hany as [Hcount _].
    rewrite Hcount.
    repeat split; try discriminate; try reflexivity; intros _; reflexivity.
Qed.

(** ** The end-to-end scenario *)

(** C2. On the five-asset manifest with thresholds 2097152 and 10485760,
    [analyze] reports 3 files, a total of 4718592 bytes shown as
    "4.50 MB", [individualExceeded = ["vendor.js"]], [totalExceeded = false],
    [anyExceeded = true] and the assets in the order vendor.js, main.js,
    styles.css. *)
Theorem analyze_scenario :
  let result := BundleAnalyzer.analyze scenario_stats scenario_config in
  Summary.fileCount (AnalysisResult.summary result) = 3%nat
  /\ Summary.totalSize (AnalysisResult.summary result) = 4718592
  /\ Summary.totalSizeText (AnalysisResult.summary result) = "4.50 MB"%string
  /\ Threshold.individualExceeded (AnalysisResult.threshold result)
     = ["vendor.js"]%string
  /\ Threshold.totalExceeded (AnalysisResult.threshold result) = false
  /\ Threshold.anyExceeded (AnalysisResult.threshold result) = true
  /\ map AnalyzedAsset.name (AnalysisResult.assets result)
     = ["vendor.js"; "main.js"; "styles.css"]%string.
Proof. vm_compute. repeat split; reflexivity. Qed.

(** ** The parser *)

Section ParseProperties.
Variable JSON_parse : string -> string + json.

Lemma isValidStats_spec (data : json) :
    StatsParser.isValidStats data = true <-> object_with_assets_array data.
Proof.
    unfold StatsParser.isValidStats, object_with_assets_array,
      StatsParser.has_property.
    split.
    - destruct data as [| | | | items | entries]; simpl; try discriminate.
      destruct (StatsParser.get_entry "assets" entries) as [[]|] eqn:E;
        simpl; try discriminate.
      intros _. eauto.
    - intros (entries & items & -> & E). simpl. rewrite E. reflexivity.
Qed.

Lemma parse_ParseError_iff (content : string) :
    throws JSON_parse JSON_PARSE_ERROR content
    <-> exists msg, JSON_parse content = inl msg.
Proof.
    unfold throws, StatsParser.parse. split.
    - intros (e & H & Hc). destruct (JSON_parse content) as [msg | data].
      + eauto.
      + destruct (negb (StatsParser.isValidStats data));
          [injection H as <-; discriminate | discriminate].
    - intros (msg & ->). eexists; split; reflexivity.
Qed.

Lemma parse_InvalidFormat_iff (content : string) (data : json) :
    JSON_parse content = inr data ->
    (throws JSON_parse INVALID_STATS_FORMAT content <-> ~ object_with_assets_array data).
Proof.
    intros Hp. unfold throws, StatsParser.parse. rewrite Hp.
    rewrite <- isValidStats_spec.
    destruct (StatsParser.isValidStats data); simpl; split.
    - intros (e & H & _). discriminate.
    - intros H. exfalso; apply H; reflexivity.
    - intros _; discriminate.
    - intros _. eexists; split; reflexivity.
Qed.

Lemma parse_returns_iff (content : string) (data : json) :
    JSON_parse content = inr data ->
    (StatsParser.parse JSON_parse content = inr data
     <-> object_with_assets_array data).
Proof.
    intros Hp. unfold StatsParser.parse. rewrite Hp.
    rewrite <- isValidStats_spec.
    destruct (StatsParser.isValidStats data); simpl; split;
      try reflexivity; try discriminate.
Qed.
End ParseProperties.

(** C8. [parse] throws a JSON_PARSE_ERROR exactly when [JSON.parse]
    rejects the text; on text that decodes to [data] it throws an
    INVALID_STATS_FORMAT exactly when [data] is not an object with an
    array-typed [assets] field, and otherwise returns [data] itself,
    whatever else [data] contains. *)
Theorem parse_outcomes (JSON_parse : string -> string + json)
    (content : string) :
  match JSON_parse content with
  | inl msg =>
      exists e, StatsParser.parse JSON_parse content = inl e
                /\ BundleStatsError.code e = JSON_PARSE_ERROR
  | inr data =>
      (object_with_assets_array data
       /\ StatsParser.parse JSON_parse content = inr data)
      \/ (~ object_with_assets_array data
          /\ exists e, StatsParser.parse JSON_parse content = inl e
                       /\ BundleStatsError.code e = INVALID_STATS_FORMAT)
  end.
Proof.
  destruct (JSON_parse content) as [msg | data] eqn:Hp.
  - apply (parse_ParseError_iff JSON_parse content). eauto.
  - destruct (StatsParser.isValidStats data) eqn:Hv.
    + left. apply isValidStats_spec in Hv. split; [exact Hv |].
      apply parse_returns_iff; assumption.
    + right.
      assert (Hn : ~ object_with_assets_array data).
      { rewrite <- isValidStats_spec, Hv. discriminate. }
      split; [exact Hn |].
      apply (parse_InvalidFormat_iff JSON_parse content data Hp). exact Hn.
Qed.

(** ** Values of the unit tests of [formatFileSize] *)

Example formatFileSize_512 : formatFileSize 512 = "512 B"%string.
Proof. vm_compute. reflexivity. Qed.

Example formatFileSize_1536 : formatFileSize 1536 = "1.50 KB"%string.
Proof. vm_compute. reflexivity. Qed.

Example formatFileSize_100MB : formatFileSize 104857600 = "100 MB"%string.
Proof. vm_compute. reflexivity. Qed.

Example formatFileSize_1GB : formatFileSize 1073741824 = "1.00 GB"%string.
Proof. vm_compute. reflexivity. Qed.

Example formatFileSize_12_3KB : formatFileSize 12636 = "12.3 KB"%string.
Proof. vm_compute. reflexivity. Qed.

(** * Further properties *)

(** ** More on [formatFileSize] *)

Lemma unit_index_opp (n : Z) : unit_index (- n) = unit_index n.
Proof. unfold unit_index. rewrite Z.abs_opp. reflexivity. Qed.

Lemma magnitude_opp (n : Z) : magnitude (- n) = magnitude n.
Proof. unfold magnitude. rewrite unit_index_opp, Z.abs_opp. reflexivity. Qed.

Lemma formatFileSize_opp (n : Z) :
  0 < n -> formatFileSize (- n) = "-" +:+ formatFileSize n.
Proof.
  intros Hn.
  rewrite (formatFileSize_chosen (- n)), (formatFileSize_chosen n) by lia.
  rewrite unit_index_opp, magnitude_opp. unfold sign_text.
  destruct (Z.ltb_spec (- n) 0) as [_ | H]; [| lia].
  destruct (Z.ltb_spec n 0) as [H | _]; [lia |]. reflexivity.
Qed.

(** X1. A negative byte count is written as a minus sign followed by the
    text of its magnitude. *)
Theorem formatFileSize_negative (n : Z) :
  0 < n -> formatFileSize (- n) = "-" +:+ formatFileSize n.
Proof. exact (formatFileSize_opp n). Qed.

Lemma formatFileSize_negative_witness :
  formatFileSize (- (1536)) = "-" +:+ formatFileSize 1536.
Proof. apply formatFileSize_negative. lia. Defined.

Lemma unit_index_unique (bytes i : Z) :
  0 <= i -> 1024 ^ i <= Z.abs bytes < 1024 ^ (i + 1) -> unit_index bytes = i.
Proof.
  intros Hi [Hlo Hhi]. unfold unit_index.
  assert (Ha : 0 < Z.abs bytes).
  { apply Z.lt_le_trans with (m := 1024 ^ i); [| exact Hlo].
    apply Z.pow_pos_nonneg; lia. }
  change 1024 with (2 ^ 10) in Hlo, Hhi.
  rewrite <- Z.pow_mul_r in Hlo, Hhi by lia.
  apply Z.log2_le_pow2 in Hlo; [| exact Ha].
  apply Z.log2_lt_pow2 in Hhi; [| exact Ha].
  symmetry. apply (Z.div_unique _ 10 i (Z.log2 (Z.abs bytes) - 10 * i)); lia.
Qed.

(** X2. The unit follows the range of the magnitude: a count of at least
    1024^i and less than 1024^(i+1) bytes is written in the unit at index
    [i] of [SIZES] (B, KB, MB, GB). *)
Theorem formatFileSize_unit_of_range (bytes : Z) (i : nat) (u : string) :
  SIZES !! i = Some u ->
  1024 ^ Z.of_nat i <= Z.abs bytes < 1024 ^ (Z.of_nat i + 1) ->
  ends_with (formatFileSize bytes) (" " +:+ u).
Proof.
  intros Hu Hrange.
  assert (Hi : unit_index bytes = Z.of_nat i)
    by (apply unit_index_unique; [lia | exact Hrange]).
  assert (Hnz : bytes <> 0).
  { intros ->. simpl in Hrange.
    assert (0 < 1024 ^ Z.of_nat i) by (apply Z.pow_pos_nonneg; lia). lia. }
  rewrite (formatFileSize_chosen bytes Hnz), Hi.
  unfold unit_text. rewrite Nat2Z.id, Hu. simpl JS.template.
  rewrite <- string_app_assoc. eexists. reflexivity.
Qed.

Lemma formatFileSize_unit_of_range_witness :
  ends_with (formatFileSize 1572864) " MB".
Proof.
  apply (formatFileSize_unit_of_range 1572864 2 "MB"); [reflexivity |].
  simpl. lia.
Defined.
Lemma Math_round_div (a k : Z) :
  0 < k ->
  JS.Math_round (inject_Z a / inject_Z k) = (2 * a + k) / (2 * k).
Proof.
  intros Hk. unfold JS.Math_round. rewrite Zdiv_Qdiv. apply Qfloor_comp.
  assert (Hk' : ~ inject_Z k == 0).
  { change 0%Q with (inject_Z 0). rewrite inject_Z_injective. lia. }
  rewrite !inject_Z_plus, !inject_Z_mult. change (inject_Z 2) with 2%Q.
  field. exact Hk'.
Qed.

Lemma toFixed_0_div (a k : Z) :
  0 < k ->
  JS.toFixed 0 (inject_Z a / inject_Z k) = JS.show_int ((2 * a + k) / (2 * k)).
Proof.
  intros Hk. rewrite <- Math_round_toFixed, Math_round_div by exact Hk.
  reflexivity.
Qed.

(** X3. A count of 1 to 1023 bytes is written in full, with the unit B. *)
Theorem formatFileSize_bytes_exact (n : Z) :
  0 < n < 1024 -> formatFileSize n = JS.show_int n +:+ " B".
Proof.
  intros Hn.
  assert (Hi : unit_index n = 0) by (apply unit_index_unique; simpl; lia).
  rewrite (formatFileSize_unfold n) by lia. cbv zeta.
  unfold magnitude, sign_text. rewrite Hi.
  destruct (Z.ltb_spec n 0) as [H | _]; [lia |].
  change (0 =? 0) with true. cbv iota.
  rewrite toFixed_0_div by reflexivity.
  rewrite Z.abs_eq by lia.
  replace ((2 * n + 1024 ^ 0) / (2 * 1024 ^ 0)) with n; [reflexivity |].
  change (1024 ^ 0) with 1.
  apply (Z.div_unique (2 * n + 1) (2 * 1) n 1); lia.
Qed.

Lemma formatFileSize_bytes_exact_witness :
  formatFileSize 1023 = JS.show_int 1023 +:+ " B".
Proof. apply formatFileSize_bytes_exact. lia. Defined.

(** X4. Rounding at the top of a unit's range gives 1024 of that unit, not
    1.00 of the next one: a count within half a KB (MB, GB) below the next
    power of 1024 is written "1024 KB" (MB, GB). *)
Theorem formatFileSize_rounds_up_to_1024 (bytes : Z) (i : nat) (u : string) :
  (1 <= i)%nat ->
  SIZES !! i = Some u ->
  2047 * 1024 ^ Z.of_nat i <= 2 * bytes ->
  bytes < 1024 ^ (Z.of_nat i + 1) ->
  formatFileSize bytes = "1024 " +:+ u.
Proof.
  intros Hi1 Hu Hlo Hhi.
  assert (Hk : 0 < 1024 ^ Z.of_nat i) by (apply Z.pow_pos_nonneg; lia).
  assert (Hpos : 0 < bytes) by lia.
  assert (Hi : unit_index bytes = Z.of_nat i).
  { apply unit_index_unique; [lia |]. rewrite Z.abs_eq by lia. lia. }
  rewrite (formatFileSize_unfold bytes) by lia. cbv zeta.
  unfold magnitude, sign_text, unit_text. rewrite Hi, Nat2Z.id, Hu.
  rewrite Z.abs_eq by lia.
  destruct (Z.ltb_spec bytes 0) as [H | _]; [lia |].
  destruct (Z.eqb_spec (Z.of_nat i) 0) as [H | _]; [lia |].
  assert (H100 : Qle_bool 100 (inject_Z bytes / inject_Z (1024 ^ Z.of_nat i))
                 = true).
  { apply Qle_bool_iff. apply Qle_shift_div_l.
    - change 0%Q with (inject_Z 0). rewrite <- Zlt_Qlt. exact Hk.
    - change 100%Q with (inject_Z 100).
      rewrite <- inject_Z_mult, <- Zle_Qle. lia. }
  rewrite H100, toFixed_0_div by exact Hk.
  rewrite Z.pow_add_r in Hhi by lia. change (1024 ^ 1) with 1024 in Hhi.
  replace ((2 * bytes + 1024 ^ Z.of_nat i) / (2 * 1024 ^ Z.of_nat i))
    with 1024; [reflexivity |].
  apply (Z.div_unique _ _ 1024
           (2 * bytes + 1024 ^ Z.of_nat i - 2048 * 1024 ^ Z.of_nat i)); lia.
Qed.

Lemma formatFileSize_rounds_up_to_1024_witness :
  formatFileSize 1048575 = "1024 " +:+ "KB".
Proof.
  apply (formatFileSize_rounds_up_to_1024 1048575 1 "KB");
    [lia | reflexivity | simpl; lia | simpl; lia].
Defined.

(** X5. [formatSizeDiff] writes an arrow and the signed size: a growth as
    "+" and its size, a shrinkage as the text [formatFileSize] gives the
    negative difference itself, no change as "0 B". *)
Theorem formatSizeDiff_signed (diff : Z) :
  formatSizeDiff diff
  = (if 0 <? diff then "📈 +" else if diff <? 0 then "📉 " else "→ ")
    +:+ formatFileSize diff.
Proof.
  unfold formatSizeDiff.
  destruct (Z.ltb_spec 0 diff) as [Hpos | Hle].
  - rewrite Z.abs_eq by lia. reflexivity.
  - destruct (Z.ltb_spec diff 0) as [Hneg | Hge].
    + replace diff with (- Z.abs diff) at 2 by lia.
      rewrite formatFileSize_opp by lia.
      rewrite <- string_app_assoc. reflexivity.
    + replace diff with 0 by lia. reflexivity.
Qed.
(** ** More on [analyze] *)

(** X6. A manifest without a reportable asset, under a total threshold
    that is not negative, gives the empty result: no asset, a total of 0
    shown as "0 B", no file count and nothing exceeded. *)
Theorem analyze_nothing_reportable (stats : WebpackStats.t)
    (config : Config.t) :
  Forall excluded (WebpackStats.assets stats) ->
  0 <= Config.totalSizeThreshold config ->
  BundleAnalyzer.analyze stats config
  = {| AnalysisResult.assets := [];
       AnalysisResult.summary :=
         {| Summary.totalSize := 0;
            Summary.totalSizeText := "0 B";
            Summary.fileCount := 0;
            Summary.exceededFileCount := 0 |};
       AnalysisResult.threshold :=
         {| Threshold.individualExceeded := [];
            Threshold.totalExceeded := false;
            Threshold.anyExceeded := false |} |}.
Proof.
  intros Hall Hthr. unfold BundleAnalyzer.analyze.
  rewrite analyzeAssets_unfold.
  assert (Hnone : filter (fun asset => ~ excluded asset)
                    (WebpackStats.assets stats) = []).
  { induction Hall as [| a l Ha _ IH]; [reflexivity |].
    rewrite filter_cons_False by (intros H; exact (H Ha)). exact IH. }
  rewrite Hnone. cbn.
  destruct (Z.ltb_spec (Config.totalSizeThreshold config) 0) as [H | _];
    [lia | reflexivity].
Qed.

Lemma analyze_nothing_reportable_witness :
  Summary.fileCount
    (AnalysisResult.summary
       (BundleAnalyzer.analyze
          (with_assets scenario_stats
             [ Asset.mk "main.js.map" 2097152 (Some true) None;
               Asset.mk "main.js" 1048576 (Some false) None ])
          scenario_config))
  = 0%nat.
Proof.
  rewrite analyze_nothing_reportable; [reflexivity | | simpl; lia].
  apply Forall_cons_2; [| apply Forall_cons_2; [| apply Forall_nil_2]].
  - left. exists "main.js"%string. reflexivity.
  - right. right. reflexivity.
Defined.

Lemma analyzeAssets_Permutation_assets (l l' : list Asset.t) (threshold : Z)
    (mapping : gmap string (list string)) :
  l ≡ₚ l' ->
  BundleAnalyzer.analyzeAssets l threshold mapping
  ≡ₚ BundleAnalyzer.analyzeAssets l' threshold mapping.
Proof.
  intros H. rewrite !analyzeAssets_Permutation, H. reflexivity.
Qed.

(** X7. The order of the manifest's assets does not matter to the summary
    or to the verdict: with the assets permuted, [analyze] gives the same
    summary, the same [totalExceeded] and [anyExceeded], and the same
    assets and exceeding names up to order. *)
Theorem analyze_order_independent (stats : WebpackStats.t)
    (config : Config.t) (assets' : list Asset.t) :
  WebpackStats.assets stats ≡ₚ assets' ->
  let r := BundleAnalyzer.analyze stats config in
  let r' := BundleAnalyzer.analyze (with_assets stats assets') config in
  AnalysisResult.summary r' = AnalysisResult.summary r
  /\ Threshold.totalExceeded (AnalysisResult.threshold r')
     = Threshold.totalExceeded (AnalysisResult.threshold r)
  /\ Threshold.anyExceeded (AnalysisResult.threshold r')
     = Threshold.anyExceeded (AnalysisResult.threshold r)
  /\ AnalysisResult.assets r' ≡ₚ AnalysisResult.assets r
  /\ Threshold.individualExceeded (AnalysisResult.threshold r')
     ≡ₚ Threshold.individualExceeded (AnalysisResult.threshold r).
Proof.
  intros Hperm r r'. unfold r, r', BundleAnalyzer.analyze.
  change (BundleAnalyzer.buildChunkMapping (with_assets stats assets'))
    with (BundleAnalyzer.buildChunkMapping stats).
  change (WebpackStats.assets (with_assets stats assets')) with assets'.
  set (mapping := BundleAnalyzer.buildChunkMapping stats).
  set (thr := Config.bundleSizeThreshold config).
  pose proof (analyzeAssets_Permutation_assets _ _ thr mapping Hperm) as HA.
  set (A := BundleAnalyzer.analyzeAssets (WebpackStats.assets stats) thr
              mapping) in *.
  set (A' := BundleAnalyzer.analyzeAssets assets' thr mapping) in *.
  assert (Htotal :
    foldl (fun sum asset => sum + AnalyzedAsset.size asset) 0 A'
    = foldl (fun sum asset => sum + AnalyzedAsset.size asset) 0 A).
  { rewrite !foldl_add_sizes. f_equal. symmetry.
    apply sum_analyzed_Permutation, HA. }
  assert (Hex : filter (fun asset => AnalyzedAsset.exceeded asset = true) A'
                ≡ₚ filter (fun asset => AnalyzedAsset.exceeded asset = true)
                     A).
  { rewrite HA. reflexivity. }
  cbn. rewrite Htotal, !length_map.
  rewrite (Permutation_length Hex), <- (Permutation_length HA).
  repeat split; try reflexivity.
  - symmetry. exact HA.
  - rewrite Hex. reflexivity.
Qed.

Lemma analyze_order_independent_witness :
  AnalysisResult.summary
    (BundleAnalyzer.analyze
       (with_assets scenario_stats
          (rev (WebpackStats.assets scenario_stats))) scenario_config)
  = AnalysisResult.summary
      (BundleAnalyzer.analyze scenario_stats scenario_config).
Proof.
  apply (analyze_order_independent scenario_stats scenario_config).
  apply Permutation_rev.
Defined.

Lemma sorted_filter_take {A : Type} (key : A -> Z) (thr : Z) (l : list A) :
  StronglySorted (fun a b => key b <= key a) l ->
  filter (fun a => thr < key a) l
  = take (length (filter (fun a => thr < key a) l)) l.
Proof.
  induction 1 as [| x l Hl IH Hx]; [reflexivity |].
  rewrite filter_cons. destruct (decide (thr < key x)) as [Hp | Hn].
  - simpl. f_equal. exact IH.
  - assert (Hnone : filter (fun a => thr < key a) l = []).
    { clear IH Hl. induction Hx as [| y l Hy _ IH]; [reflexivity |].
      rewrite filter_cons_False by lia. exact IH. }
    rewrite Hnone. reflexivity.
Qed.

Lemma filter_iff_elem_of {A : Type} (P Q : A -> Prop)
    `{!forall x, Decision (P x)} `{!forall x, Decision (Q x)} (l : list A) :
  (forall x, x ∈ l -> (P x <-> Q x)) -> filter P l = filter Q l.
Proof.
  induction l as [| x l IH]; intros Hiff; [reflexivity |].
  rewrite !filter_cons.
  rewrite IH by (intros y Hy; apply Hiff; right; exact Hy).
  assert (Hx : P x <-> Q x) by (apply Hiff; left).
  destruct (decide (P x)), (decide (Q x)); tauto || reflexivity.
Qed.

Lemma analyze_exceeded_filter (stats : WebpackStats.t) (config : Config.t) :
  let assets := AnalysisResult.assets (BundleAnalyzer.analyze stats config) in
  filter (fun asset => AnalyzedAsset.exceeded asset = true) assets
  = filter (fun asset => Config.bundleSizeThreshold config
                         < AnalyzedAsset.size asset) assets.
Proof.
  intros assets. apply filter_iff_elem_of. intros x Hx.
  apply (analyzed_exceeded_iff stats config x Hx).
Qed.

(** X8. The files over the individual threshold are the first
    [exceededFileCount] assets of the result, in that order: the report
    lists them before every file within the limit. *)
Theorem analyze_exceeded_are_first (stats : WebpackStats.t)
    (config : Config.t) :
  let result := BundleAnalyzer.analyze stats config in
  let n := Summary.exceededFileCount (AnalysisResult.summary result) in
  filter (fun asset => AnalyzedAsset.exceeded asset = true)
    (AnalysisResult.assets result)
  = take n (AnalysisResult.assets result)
  /\ Threshold.individualExceeded (AnalysisResult.threshold result)
     = map AnalyzedAsset.name (take n (AnalysisResult.assets result))
  /\ Forall (fun asset => AnalyzedAsset.exceeded asset = false)
       (drop n (AnalysisResult.assets result)).
Proof.
  intros result n.
  assert (Hsorted : descending_by_size (AnalysisResult.assets result)).
  { unfold result.
    change (AnalysisResult.assets (BundleAnalyzer.analyze stats config))
      with (BundleAnalyzer.analyzeAssets (WebpackStats.assets stats)
              (Config.bundleSizeThreshold config)
              (BundleAnalyzer.buildChunkMapping stats)).
    rewrite analyzeAssets_unfold.
    apply (sort_sorted AnalyzedAsset.size). reflexivity. }
  assert (Htake : filter (fun asset => AnalyzedAsset.exceeded asset = true)
                    (AnalysisResult.assets result)
                  = take n (AnalysisResult.assets result)).
  { unfold n.
    change (Summary.exceededFileCount (AnalysisResult.summary result))
      with (length (filter (fun asset => AnalyzedAsset.exceeded asset = true)
                      (AnalysisResult.assets result))).
    unfold result. rewrite (analyze_exceeded_filter stats config).
    apply (sorted_filter_take AnalyzedAsset.size), Hsorted. }
  split; [exact Htake |]. split.
  - change (Threshold.individualExceeded (AnalysisResult.threshold result))
      with (map AnalyzedAsset.name
              (filter (fun asset => AnalyzedAsset.exceeded asset = true)
                 (AnalysisResult.assets result))).
    rewrite Htake. reflexivity.
  - apply Forall_forall. intros x Hx.
    destruct (AnalyzedAsset.exceeded x) eqn:E; [| reflexivity]. exfalso.
    assert (Hin : x ∈ AnalysisResult.assets result).
    { rewrite <- (take_drop n). apply elem_of_app. right. exact Hx. }
    assert (Hf : x ∈ filter (fun asset => AnalyzedAsset.exceeded asset = true)
                   (AnalysisResult.assets result))
      by (apply list_elem_of_filter; split; assumption).
    pose proof (f_equal length Htake) as Hlen.
    rewrite length_take in Hlen.
    assert (Hcount :
      length (filter (fun asset => AnalyzedAsset.exceeded asset = true)
                (drop n (AnalysisResult.assets result))) = 0%nat).
    { pose proof (f_equal length
        (f_equal (filter (fun asset => AnalyzedAsset.exceeded asset = true))
           (take_drop n (AnalysisResult.assets result)))) as Hsplit.
      rewrite filter_app, length_app in Hsplit.
      rewrite <- Htake in Hsplit at 1.
      rewrite list_filter_filter in Hsplit.
      rewrite (list_filter_iff _
                 (fun asset => AnalyzedAsset.exceeded asset = true)) in Hsplit
        by (intros; tauto).
      lia. }
    apply length_zero_iff_nil in Hcount.
    apply (filter_nil_not_elem_of _ _ x Hcount E Hx).
Qed.

Lemma StronglySorted_app_elem_of {A : Type} (R : A -> A -> Prop)
    (l1 l2 : list A) (x y : A) :
  StronglySorted R (l1 ++ l2) -> x ∈ l1 -> y ∈ l2 -> R x y.
Proof.
  induction l1 as [| a l1 IH]; intros Hs Hx Hy; [inversion Hx |].
  simpl in Hs. apply StronglySorted_inv in Hs as [Hs Ha].
  apply elem_of_cons in Hx as [-> | Hx].
  - rewrite Forall_forall in Ha. apply Ha, elem_of_app. right. exact Hy.
  - apply IH; assumption.
Qed.

(** X9. [getTopAssets] on the assets of a result returns its first assets,
    as many as the limit allows (a negative limit leaves that many off the
    end), and none of the assets left out is larger than one returned. *)
Theorem getTopAssets_largest (stats : WebpackStats.t) (config : Config.t)
    (limit : Z) :
  let all := AnalysisResult.assets (BundleAnalyzer.analyze stats config) in
  let top := getTopAssets all limit in
  let len := Z.of_nat (length all) in
  Z.of_nat (length top)
  = (if limit <? 0 then Z.max (len + limit) 0 else Z.min limit len)
  /\ all = top ++ drop (length top) all
  /\ (forall x y, x ∈ top -> y ∈ drop (length top) all ->
        AnalyzedAsset.size y <= AnalyzedAsset.size x).
Proof.
  intros all top len.
  assert (Hsorted : descending_by_size all).
  { unfold all.
    change (AnalysisResult.assets (BundleAnalyzer.analyze stats config))
      with (BundleAnalyzer.analyzeAssets (WebpackStats.assets stats)
              (Config.bundleSizeThreshold config)
              (BundleAnalyzer.buildChunkMapping stats)).
    rewrite analyzeAssets_unfold.
    apply (sort_sorted AnalyzedAsset.size). reflexivity. }
  set (k := Z.to_nat (if limit <? 0 then Z.max (len + limit) 0
                      else Z.min limit len)).
  assert (Htop : top = take k all) by reflexivity.
  assert (Hk : (k <= length all)%nat).
  { unfold k, len. destruct (Z.ltb_spec limit 0); lia. }
  assert (Hlen : length top = k) by (rewrite Htop, length_take; lia).
  split; [| split].
  - rewrite Hlen. unfold k, len. destruct (Z.ltb_spec limit 0); lia.
  - rewrite Hlen, Htop. symmetry. apply take_drop.
  - intros x y Hx Hy. rewrite Hlen in Hy. rewrite Htop in Hx.
    rewrite <- (take_drop k all) in Hsorted.
    exact (StronglySorted_app_elem_of _ _ _ x y Hsorted Hx Hy).
Qed.
(** ** More on the chunk attribution *)

Lemma get_or_empty_insert (mapping : gmap string (list string))
    (key key' : string) (names : list string) :
  BundleAnalyzer.get_or_empty (<[key := names]> mapping) key'
  = if decide (key = key') then names
    else BundleAnalyzer.get_or_empty mapping key'.
Proof.
  unfold BundleAnalyzer.get_or_empty. rewrite lookup_insert.
  case_decide; reflexivity.
Qed.

Lemma push_new_elem_of (existing : list string) (name c : string) :
  c ∈ BundleAnalyzer.push_new existing name <-> c ∈ existing \/ c = name.
Proof.
  unfold BundleAnalyzer.push_new.
  destruct (JS.includes existing name) eqn:E; simpl.
  - apply includes_spec in E. split; [auto |].
    intros [H | ->]; assumption.
  - rewrite elem_of_app, list_elem_of_singleton. reflexivity.
Qed.

Lemma foldl_push_new_elem_of (names existing : list string) (c : string) :
  c ∈ foldl BundleAnalyzer.push_new existing names
  <-> c ∈ existing \/ c ∈ names.
Proof.
  revert existing. induction names as [| n names IH]; intros existing; simpl.
  - split; [auto | intros [H | H]; [exact H | inversion H]].
  - rewrite IH, push_new_elem_of, elem_of_cons. tauto.
Qed.

Lemma addAssetsByChunkName_elem_of (mapping : gmap string (list string))
    (chunkName : string) (assets : string + list string) (a c : string) :
  c ∈ BundleAnalyzer.get_or_empty
        (BundleAnalyzer.addAssetsByChunkName mapping (chunkName, assets)) a
  <-> c ∈ BundleAnalyzer.get_or_empty mapping a
      \/ (c = chunkName /\ a ∈ entry_assets assets).
Proof.
  unfold BundleAnalyzer.addAssetsByChunkName. fold (entry_assets assets).
  revert mapping. induction (entry_assets assets) as [| x l IH];
    intros mapping; simpl.
  - split; [auto | intros [H | [_ H]]; [exact H | inversion H]].
  - rewrite IH, get_or_empty_insert, elem_of_cons. case_decide as Hx.
    + subst x. rewrite elem_of_app, list_elem_of_singleton. tauto.
    + split; [tauto |]. intros [H | [Hc [-> | H]]]; tauto.
Qed.

Lemma assetsByChunkName_elem_of
    (entries : list (string * (string + list string)))
    (mapping : gmap string (list string)) (a c : string) :
  c ∈ BundleAnalyzer.get_or_empty
        (foldl BundleAnalyzer.addAssetsByChunkName mapping entries) a
  <-> c ∈ BundleAnalyzer.get_or_empty mapping a
      \/ exists assets, (c, assets) ∈ entries /\ a ∈ entry_assets assets.
Proof.
  revert mapping. induction entries as [| [chunkName assets] entries IH];
    intros mapping; cbn [foldl].
  - split; [auto | intros [H | (? & H & _)]; [exact H | inversion H]].
  - rewrite IH, addAssetsByChunkName_elem_of. split.
    + intros [[H | [-> H]] | (assets' & Hin & H)].
      * left; exact H.
      * right. exists assets. split; [left | exact H].
      * right. exists assets'. split; [right; exact Hin | exact H].
    + intros [H | (assets' & Hin & H)]; [tauto |].
      apply elem_of_cons in Hin as [[= -> ->] | Hin].
      * left. right. split; [reflexivity | exact H].
      * right. exists assets'. split; assumption.
Qed.

Lemma addChunk_elem_of (mapping : gmap string (list string))
    (chunk : Chunk.t) (a c : string) :
  c ∈ BundleAnalyzer.get_or_empty (BundleAnalyzer.addChunk mapping chunk) a
  <-> c ∈ BundleAnalyzer.get_or_empty mapping a
      \/ exists files, Chunk.files chunk = Some files
                       /\ a ∈ files /\ c ∈ Chunk.names chunk.
Proof.
  unfold BundleAnalyzer.addChunk.
  destruct (Chunk.files chunk) as [files |].
  - transitivity (c ∈ BundleAnalyzer.get_or_empty mapping a
                  \/ (a ∈ files /\ c ∈ Chunk.names chunk)).
    + revert mapping. induction files as [| x l IH]; intros mapping; simpl.
      * split; [auto | intros [H | [H _]]; [exact H | inversion H]].
      * rewrite IH, get_or_empty_insert, elem_of_cons.
        case_decide as Hx.
        -- subst x. rewrite foldl_push_new_elem_of. tauto.
        -- split; [tauto |]. intros [H | [[-> | H] Hc]]; tauto.
    + split.
      * intros [H | H]; [left; exact H | right; exists files; tauto].
      * intros [H | (files' & [= <-] & H)]; tauto.
  - split; [auto | intros [H | (files & Hf & _)]; [exact H | discriminate]].
Qed.

Lemma chunks_elem_of (chunks : list Chunk.t)
    (mapping : gmap string (list string)) (a c : string) :
  c ∈ BundleAnalyzer.get_or_empty (foldl BundleAnalyzer.addChunk mapping chunks)
        a
  <-> c ∈ BundleAnalyzer.get_or_empty mapping a
      \/ exists chunk files, chunk ∈ chunks /\ Chunk.files chunk = Some files
                             /\ a ∈ files /\ c ∈ Chunk.names chunk.
Proof.
  revert mapping. induction chunks as [| chunk chunks IH]; intros mapping;
    cbn [foldl].
  - split; [auto | intros [H | (? & ? & H & _)]; [exact H | inversion H]].
  - rewrite IH, addChunk_elem_of. split.
    + intros [[H | (files & H)] | (chunk' & files & Hin & H)].
      * left; exact H.
      * right. exists chunk, files. split; [left | exact H].
      * right. exists chunk', files. split; [right; exact Hin | exact H].
    + intros [H | (chunk' & files & Hin & H)]; [tauto |].
      apply elem_of_cons in Hin as [-> | Hin].
      * left. right. exists files. exact H.
      * right. exists chunk', files. split; assumption.
Qed.

Lemma addNamedChunkGroup_elem_of (mapping : gmap string (list string))
    (groupName : string) (group : ChunkGroup.t) (a c : string) :
  c ∈ BundleAnalyzer.get_or_empty
        (BundleAnalyzer.addNamedChunkGroup mapping (groupName, group)) a
  <-> c ∈ BundleAnalyzer.get_or_empty mapping a
      \/ (c = groupName /\ a ∈ ChunkGroup.assets group).
Proof.
  unfold BundleAnalyzer.addNamedChunkGroup.
  revert mapping. induction (ChunkGroup.assets group) as [| x l IH];
    intros mapping; simpl.
  - split; [auto | intros [H | [_ H]]; [exact H | inversion H]].
  - rewrite IH, get_or_empty_insert, elem_of_cons. case_decide as Hx.
    + subst x. rewrite push_new_elem_of. tauto.
    + split; [tauto |]. intros [H | [Hc [-> | H]]]; tauto.
Qed.

Lemma namedChunkGroups_elem_of (groups : list (string * ChunkGroup.t))
    (mapping : gmap string (list string)) (a c : string) :
  c ∈ BundleAnalyzer.get_or_empty
        (foldl BundleAnalyzer.addNamedChunkGroup mapping groups) a
  <-> c ∈ BundleAnalyzer.get_or_empty mapping a
      \/ exists group, (c, group) ∈ groups /\ a ∈ ChunkGroup.assets group.
Proof.
  revert mapping. induction groups as [| [groupName group] groups IH];
    intros mapping; cbn [foldl].
  - split; [auto | intros [H | (? & H & _)]; [exact H | inversion H]].
  - rewrite IH, addNamedChunkGroup_elem_of. split.
    + intros [[H | [-> H]] | (group' & Hin & H)].
      * left; exact H.
      * right. exists group. split; [left | exact H].
      * right. exists group'. split; [right; exact Hin | exact H].
    + intros [H | (group' & Hin & H)]; [tauto |].
      apply elem_of_cons in Hin as [[= -> ->] | Hin].
      * left. right. split; [reflexivity | exact H].
      * right. exists group'. split; assumption.
Qed.

(** X10. The chunk names of an asset are exactly the names the three
    sources attribute to it: the keys of [assetsByChunkName] that list it,
    the names of the chunks whose files contain it and the keys of
    [namedChunkGroups] whose assets contain it; an asset no source
    mentions gets none. *)
Theorem buildChunkMapping_elem_of (stats : WebpackStats.t)
    (asset name : string) :
  name ∈ BundleAnalyzer.get_or_empty (BundleAnalyzer.buildChunkMapping stats)
           asset
  <-> attributed stats asset name.
Proof.
  unfold BundleAnalyzer.buildChunkMapping, attributed.
  set (m1 := match WebpackStats.assetsByChunkName stats with
             | Some entries =>
                 foldl BundleAnalyzer.addAssetsByChunkName ∅ entries
             | None => ∅
             end).
  set (m2 := match WebpackStats.chunks stats with
             | Some chunks => foldl BundleAnalyzer.addChunk m1 chunks
             | None => m1
             end).
  assert (H1 : name ∈ BundleAnalyzer.get_or_empty m1 asset
               <-> exists entries assets,
                     WebpackStats.assetsByChunkName stats = Some entries
                     /\ (name, assets) ∈ entries
                     /\ asset ∈ entry_assets assets).
  { unfold m1. destruct (WebpackStats.assetsByChunkName stats) as [entries |].
    - rewrite assetsByChunkName_elem_of. split.
      + intros [H | (assets & H)]; [inversion H |].
        exists entries, assets. tauto.
      + intros (entries' & assets & [= <-] & H). right. exists assets. exact H.
    - split; [intros H; inversion H | intros (? & ? & H & _); discriminate]. }
  assert (H2 : name ∈ BundleAnalyzer.get_or_empty m2 asset
               <-> name ∈ BundleAnalyzer.get_or_empty m1 asset
                   \/ exists chunks chunk files,
                        WebpackStats.chunks stats = Some chunks
                        /\ chunk ∈ chunks /\ Chunk.files chunk = Some files
                        /\ asset ∈ files /\ name ∈ Chunk.names chunk).
  { unfold m2. destruct (WebpackStats.chunks stats) as [chunks |].
    - rewrite chunks_elem_of. split.
      + intros [H | (chunk & files & H)]; [left; exact H |].
        right. exists chunks, chunk, files. tauto.
      + intros [H | (chunks' & chunk & files & [= <-] & H)];
          [left; exact H |].
        right. exists chunk, files. exact H.
    - split; [auto |].
      intros [H | (? & ? & ? & H & _)]; [exact H | discriminate]. }
  destruct (WebpackStats.namedChunkGroups stats) as [groups |].
  - rewrite namedChunkGroups_elem_of, H2, H1. split.
    + intros [[H | H] | (group & H)]; [tauto | tauto |].
      right. right. exists groups, group. tauto.
    + intros [H | [H | (groups' & group & [= <-] & H)]]; [tauto | tauto |].
      right. exists group. exact H.
  - rewrite H2, H1. split; [tauto |].
    intros [H | [H | (? & ? & H & _)]]; [tauto | tauto | discriminate].
Qed.
(** X11. Where the keys of [assetsByChunkName] are distinct and none of
    its values lists an asset twice, no asset of the result carries a
    chunk name twice. *)
Theorem analyze_chunkNames_NoDup (stats : WebpackStats.t) (config : Config.t) :
  (forall entries, WebpackStats.assetsByChunkName stats = Some entries ->
     NoDup (map fst entries)
     /\ Forall (fun entry => NoDup (entry_assets (snd entry))) entries) ->
  Forall (fun asset => NoDup (AnalyzedAsset.chunkNames asset))
    (AnalysisResult.assets (BundleAnalyzer.analyze stats config)).
Proof.
  intros Hfirst. apply Forall_forall. intros x Hx.
  change (AnalysisResult.assets (BundleAnalyzer.analyze stats config))
    with (BundleAnalyzer.analyzeAssets (WebpackStats.assets stats)
            (Config.bundleSizeThreshold config)
            (BundleAnalyzer.buildChunkMapping stats)) in Hx.
  rewrite analyzeAssets_Permutation in Hx.
  apply list_elem_of_fmap in Hx as (asset & -> & _). simpl.
  apply buildChunkMapping_NoDup, Hfirst.
Qed.

Lemma analyze_chunkNames_NoDup_witness :
  Forall (fun asset => NoDup (AnalyzedAsset.chunkNames asset))
    (AnalysisResult.assets
       (BundleAnalyzer.analyze
          {| WebpackStats.assets := [ Asset.mk "a.js" 1 None None ];
             WebpackStats.chunks :=
               Some [ Chunk.mk ["main"; "app"]%string
                        (Some ["a.js"]%string) ];
             WebpackStats.assetsByChunkName :=
               Some [ ("main"%string, inl "a.js"%string) ];
             WebpackStats.namedChunkGroups := None |}
          scenario_config)).
Proof.
  apply analyze_chunkNames_NoDup. intros entries [= <-]. split.
  - apply NoDup_singleton.
  - apply Forall_cons_2; [apply NoDup_singleton | apply Forall_nil_2].
Defined.

(** ** The order of the chunk names *)

Lemma extends_refl (mapping : gmap string (list string)) :
  extends mapping mapping.
Proof. intros key. reflexivity. Qed.

Lemma extends_trans (m1 m2 m3 : gmap string (list string)) :
  extends m1 m2 -> extends m2 m3 -> extends m1 m3.
Proof. intros H12 H23 key. etransitivity; [apply H12 | apply H23]. Qed.

Lemma extends_insert (mapping : gmap string (list string)) (key : string)
    (names : list string) :
  BundleAnalyzer.get_or_empty mapping key `prefix_of` names ->
  extends mapping (<[key := names]> mapping).
Proof.
  intros H key'. rewrite get_or_empty_insert. case_decide as Hk.
  - subst key'. exact H.
  - reflexivity.
Qed.

Lemma extends_foldl {B : Type}
    (f : gmap string (list string) -> B -> gmap string (list string))
    (l : list B) (mapping : gmap string (list string)) :
  (forall m b, extends m (f m b)) -> extends mapping (foldl f mapping l).
Proof.
  intros Hstep. revert mapping. induction l as [| b l IH]; intros mapping;
    cbn [foldl]; [apply extends_refl |].
  eapply extends_trans; [apply Hstep | apply IH].
Qed.

Lemma push_new_prefix (existing : list string) (name : string) :
  existing `prefix_of` BundleAnalyzer.push_new existing name.
Proof.
  unfold BundleAnalyzer.push_new. destruct (JS.includes existing name); simpl.
  - reflexivity.
  - apply prefix_app_r. reflexivity.
Qed.

Lemma foldl_push_new_prefix (names existing : list string) :
  existing `prefix_of` foldl BundleAnalyzer.push_new existing names.
Proof.
  revert existing. induction names as [| n names IH]; intros existing;
    cbn [foldl]; [reflexivity |].
  etransitivity; [apply push_new_prefix | apply IH].
Qed.

Lemma addChunk_extends (mapping : gmap string (list string))
    (chunk : Chunk.t) :
  extends mapping (BundleAnalyzer.addChunk mapping chunk).
Proof.
  unfold BundleAnalyzer.addChunk.
  destruct (Chunk.files chunk) as [files |]; [| apply extends_refl].
  apply extends_foldl. intros m file. apply extends_insert.
  apply foldl_push_new_prefix.
Qed.

Lemma addNamedChunkGroup_extends (mapping : gmap string (list string))
    (entry : string * ChunkGroup.t) :
  extends mapping (BundleAnalyzer.addNamedChunkGroup mapping entry).
Proof.
  destruct entry as [groupName group].
  unfold BundleAnalyzer.addNamedChunkGroup. apply extends_foldl.
  intros m asset. apply extends_insert. apply push_new_prefix.
Qed.

(** X12. The sources only append, in their order: the chunk names an
    asset gets from [assetsByChunkName] alone open the list it gets from
    [assetsByChunkName] and [chunks], which opens the list it gets from
    all three sources. *)
Theorem buildChunkMapping_source_order (stats : WebpackStats.t)
    (asset : string) :
  BundleAnalyzer.get_or_empty
    (BundleAnalyzer.buildChunkMapping (only_assetsByChunkName stats)) asset
  `prefix_of`
  BundleAnalyzer.get_or_empty
    (BundleAnalyzer.buildChunkMapping (without_namedChunkGroups stats)) asset
  /\ BundleAnalyzer.get_or_empty
       (BundleAnalyzer.buildChunkMapping (without_namedChunkGroups stats))
       asset
     `prefix_of`
     BundleAnalyzer.get_or_empty (BundleAnalyzer.buildChunkMapping stats)
       asset.
Proof.
  unfold BundleAnalyzer.buildChunkMapping, only_assetsByChunkName,
    without_namedChunkGroups. cbn.
  set (m1 := match WebpackStats.assetsByChunkName stats with
             | Some entries =>
                 foldl BundleAnalyzer.addAssetsByChunkName ∅ entries
             | None => ∅
             end).
  split.
  - destruct (WebpackStats.chunks stats) as [chunks |]; [| reflexivity].
    apply (extends_foldl BundleAnalyzer.addChunk), addChunk_extends.
  - destruct (WebpackStats.namedChunkGroups stats) as [groups |];
      [| reflexivity].
    apply (extends_foldl BundleAnalyzer.addNamedChunkGroup),
      addNamedChunkGroup_extends.
Qed.
Example getExtension_values :
  map getExtension
    ["main.js"; "bundle.min.js"; ".min.js"; ".js"; "x.min"; "LICENSE";
     "a.min.min.js"; "archive.tar.gz"; "."; "a.minx.js"]%string
  = ["."+:+"js"; ".min.js"; ".min.js"; ".js"; ".min"; ""; ".min.js"; ".gz";
     "."; ".js"]%string.
Proof. vm_compute. reflexivity. Qed.
(** ** File extensions *)

Lemma scan_app (c : ascii) (p q : string) (k start : nat) (found : Z) :
  JSString.lastIndexOf_scan c (p +:+ q) k start found
  = JSString.lastIndexOf_scan c q (k + String.length p) start
      (JSString.lastIndexOf_scan c p k start found).
Proof.
  revert k found. induction p as [| x p IH]; intros k found.
  - simpl String.length. rewrite Nat.add_0_r. reflexivity.
  - rewrite string_app_cons. cbn [JSString.lastIndexOf_scan String.length].
    rewrite IH. f_equal. lia.
Qed.

Lemma scan_no_char (c : ascii) (s : string) (k start : nat) (found : Z) :
  has_char c s = false ->
  JSString.lastIndexOf_scan c s k start found = found.
Proof.
  revert k. induction s as [| x s IH]; intros k H; [reflexivity |].
  cbn [has_char] in H. apply orb_false_elim in H as [Hx H].
  cbn [JSString.lastIndexOf_scan]. rewrite Hx. simpl. apply IH, H.
Qed.

Lemma scan_beyond (c : ascii) (s : string) (k start : nat) (found : Z) :
  (start < k)%nat ->
  JSString.lastIndexOf_scan c s k start found = found.
Proof.
  revert k. induction s as [| x s IH]; intros k H; [reflexivity |].
  cbn [JSString.lastIndexOf_scan].
  replace (k <=? start)%nat with false
    by (symmetry; apply Nat.leb_gt; exact H).
  rewrite andb_false_r. apply IH. lia.
Qed.

Lemma scan_last (c : ascii) (p t : string) (k start : nat) (found : Z) :
  has_char c t = false ->
  (k + String.length p <= start)%nat ->
  JSString.lastIndexOf_scan c (p +:+ String c t) k start found
  = Z.of_nat (k + String.length p).
Proof.
  intros Ht Hle. rewrite scan_app. cbn [JSString.lastIndexOf_scan].
  rewrite Ascii.eqb_refl.
  replace (k + String.length p <=? start)%nat with true
    by (symmetry; apply Nat.leb_le; exact Hle).
  simpl andb. cbv iota. apply scan_no_char, Ht.
Qed.

Lemma substring_skip (p s : string) (n m : nat) :
  substring (String.length p + n) m (p +:+ s) = substring n m s.
Proof.
  induction p as [| x p IH]; [reflexivity |].
  rewrite string_app_cons. simpl. exact IH.
Qed.

Lemma substring_prefix (q r : string) :
  substring 0 (String.length q) (q +:+ r) = q.
Proof.
  induction q as [| x q IH]; [destruct r; reflexivity |].
  rewrite string_app_cons. simpl. rewrite IH. reflexivity.
Qed.

Lemma substring_whole (s : string) : substring 0 (String.length s) s = s.
Proof.
  induction s as [| x s IH]; [reflexivity |]. simpl. rewrite IH. reflexivity.
Qed.

Lemma slice_from (p q : string) :
  JSString.slice (p +:+ q) (Z.of_nat (String.length p)) None = q.
Proof.
  unfold JSString.slice, JSString.relative_index.
  rewrite string_length_app.
  destruct (Z.ltb_spec (Z.of_nat (String.length p)) 0) as [H | _]; [lia |].
  rewrite Z.min_l by lia. rewrite Nat2Z.id.
  replace (Z.to_nat _) with (String.length q) by lia.
  rewrite <- (Nat.add_0_r (String.length p)), substring_skip.
  apply substring_whole.
Qed.

Lemma slice_between (p q r : string) :
  JSString.slice (p +:+ q +:+ r) (Z.of_nat (String.length p))
    (Some (Z.of_nat (String.length p + String.length q)))
  = q.
Proof.
  unfold JSString.slice, JSString.relative_index.
  rewrite !string_length_app.
  destruct (Z.ltb_spec (Z.of_nat (String.length p)) 0) as [H | _]; [lia |].
  destruct (Z.ltb_spec (Z.of_nat (String.length p + String.length q)) 0)
    as [H | _]; [lia |].
  rewrite !Z.min_l by lia. rewrite Nat2Z.id.
  replace (Z.to_nat _) with (String.length q) by lia.
  rewrite <- (Nat.add_0_r (String.length p)), substring_skip.
  apply substring_prefix.
Qed.

Lemma lastIndexOf_no_char (c : ascii) (s : string) (position : option Z) :
  has_char c s = false -> JSString.lastIndexOf s c position = -1.
Proof.
  intros H. unfold JSString.lastIndexOf.
  destruct (_ <? 0); [reflexivity | apply scan_no_char, H].
Qed.

Lemma lastIndexOf_last (c : ascii) (p t : string) :
  has_char c t = false ->
  JSString.lastIndexOf (p +:+ String c t) c None
  = Z.of_nat (String.length p).
Proof.
  intros Ht. unfold JSString.lastIndexOf.
  rewrite string_length_app. cbn [String.length].
  destruct (Z.ltb_spec (Z.of_nat (String.length p + S (String.length t)) - 1)
              0) as [H | _]; [lia |].
  rewrite scan_last by (exact Ht || lia). reflexivity.
Qed.

(** The search from the index before [p]'s end: what it finds lies in
    [p], unless [p] is empty and the search falls on index 0. *)
Lemma lastIndexOf_before (c : ascii) (p t : string) :
  p <> ""%string ->
  JSString.lastIndexOf (p +:+ String c t) c
    (Some (Z.of_nat (String.length p) - 1))
  = JSString.lastIndexOf p c None.
Proof.
  intros Hp. unfold JSString.lastIndexOf.
  rewrite string_length_app. cbn [String.length].
  assert (Hlen : (0 < String.length p)%nat).
  { destruct p; [contradiction | simpl; lia]. }
  rewrite Z.max_l by lia. rewrite Z.min_l by lia.
  destruct (Z.ltb_spec (Z.of_nat (String.length p) - 1) 0) as [H | _];
    [lia |].
  rewrite scan_app, scan_beyond by lia. reflexivity.
Qed.

Lemma lastIndexOf_at_start (c : ascii) (t : string) :
  JSString.lastIndexOf (String c t) c (Some (0 - 1)) = 0.
Proof.
  unfold JSString.lastIndexOf. cbn [String.length].
  rewrite Z.max_r by lia. rewrite Z.min_l by lia.
  change (0 <? 0) with false. cbv iota. change (Z.to_nat 0) with 0%nat.
  cbn [JSString.lastIndexOf_scan]. rewrite Ascii.eqb_refl.
  simpl andb. cbv iota. apply scan_beyond. lia.
Qed.

Lemma last_dot_decomposition (c : ascii) (s : string) :
  has_char c s = false
  \/ exists p t, s = p +:+ String c t /\ has_char c t = false.
Proof.
  induction s as [| x s IH]; [left; reflexivity |].
  destruct IH as [Hnone | (p & t & -> & Ht)].
  - cbn [has_char]. destruct (Ascii.eqb_spec x c) as [-> | Hx].
    + right. exists ""%string, s. split; [reflexivity | exact Hnone].
    + left. exact Hnone.
  - right. exists (String x p), t. split; [reflexivity | exact Ht].
Qed.

Lemma getExtension_no_dot (filename : string) :
  has_char "." filename = false -> getExtension filename = ""%string.
Proof.
  intros H. unfold getExtension. rewrite lastIndexOf_no_char by exact H.
  reflexivity.
Qed.

Lemma getExtension_min (p t : string) :
  has_char "." t = false ->
  getExtension (p +:+ ".min." +:+ t) = (".min." +:+ t)%string.
Proof.
  intros Ht. unfold getExtension.
  change (p +:+ ".min." +:+ t) with (p +:+ ".min" +:+ String "." t).
  rewrite <- string_app_assoc.
  rewrite lastIndexOf_last by exact Ht.
  destruct (Z.eqb_spec (Z.of_nat (String.length (p +:+ ".min"))) (-1))
    as [H | _]; [lia |].
  cbv zeta.
  rewrite lastIndexOf_before by (destruct p; discriminate).
  change (p +:+ ".min") with (p +:+ String "." "min").
  rewrite lastIndexOf_last by reflexivity.
  destruct (Z.eqb_spec (Z.of_nat (String.length p)) (-1)) as [H | _]; [lia |].
  rewrite string_app_assoc.
  replace (Z.of_nat (String.length (p +:+ String "." "min")))
    with (Z.of_nat (String.length p + String.length ".min"))
    by (rewrite string_length_app; reflexivity).
  change (String "." "min" +:+ String "." t)
    with (".min" +:+ String "." t).
  rewrite slice_between. simpl negb. simpl andb. cbv iota.
  apply slice_from.
Qed.

Lemma getExtension_plain (p t : string) :
  has_char "." t = false ->
  ~ ends_with p ".min" ->
  getExtension (p +:+ "." +:+ t) = ("." +:+ t)%string.
Proof.
  intros Ht Hp. unfold getExtension.
  change (p +:+ "." +:+ t) with (p +:+ String "." t).
  rewrite lastIndexOf_last by exact Ht.
  destruct (Z.eqb_spec (Z.of_nat (String.length p)) (-1)) as [H | _]; [lia |].
  cbv zeta. rewrite slice_from.
  destruct p as [| x p'].
  { change ("" +:+ String "." t) with (String "." t).
    change (Z.of_nat (String.length "")) with 0.
    rewrite lastIndexOf_at_start. reflexivity. }
  rewrite lastIndexOf_before by discriminate.
  destruct (last_dot_decomposition "." (String x p'))
    as [Hnone | (q & r & Hq & Hr)].
  - rewrite lastIndexOf_no_char by exact Hnone. reflexivity.
  - rewrite Hq, lastIndexOf_last by exact Hr.
    destruct (Z.eqb_spec (Z.of_nat (String.length q)) (-1)) as [H | _];
      [lia |].
    replace (Z.of_nat (String.length (q +:+ String "." r)))
      with (Z.of_nat (String.length q + String.length (String "." r)))
      by (rewrite string_length_app; reflexivity).
    rewrite string_app_assoc, slice_between.
    destruct (String.eqb_spec (String "." r) ".min") as [Heq | _];
      [| reflexivity].
    exfalso. apply Hp. rewrite Hq, Heq. exists q. reflexivity.
Qed.

(** X13. [getExtension] returns the text from the last dot of the file
    name on, from the dot before it when the text between the two dots is
    "min" (".min.js"), and the empty text when the name has no dot. *)
Theorem getExtension_spec :
  (forall filename,
     has_char "." filename = false -> getExtension filename = ""%string)
  /\ (forall p t,
        has_char "." t = false -> ~ ends_with p ".min" ->
        getExtension (p +:+ "." +:+ t) = ("." +:+ t)%string)
  /\ (forall p t,
        has_char "." t = false ->
        getExtension (p +:+ ".min." +:+ t) = (".min." +:+ t)%string).
Proof.
  split; [exact getExtension_no_dot |].
  split; [exact getExtension_plain | exact getExtension_min].
Qed.

Lemma getExtension_spec_witness :
  getExtension ("" +:+ "." +:+ "js") = ("." +:+ "js")%string
  /\ getExtension ("vendor" +:+ ".min." +:+ "js") = (".min." +:+ "js")%string
  /\ getExtension "LICENSE" = ""%string.
Proof.
  destruct getExtension_spec as (H1 & H2 & H3). split; [| split].
  - apply H2; [reflexivity |]. intros [[| c p] H]; discriminate H.
  - apply H3. reflexivity.
  - apply H1. reflexivity.
Defined.
Lemma string_app_empty_r (s : string) : s +:+ "" = s.
Proof.
  induction s as [| x s IH]; [reflexivity |].
  rewrite string_app_cons, IH. reflexivity.
Qed.

Lemma has_char_app_cons (c : ascii) (p t : string) :
  has_char c (p +:+ String c t) = true.
Proof.
  induction p as [| x p IH].
  - cbn [has_char]. change ("" +:+ String c t) with (String c t).
    cbn [has_char]. rewrite Ascii.eqb_refl. reflexivity.
  - rewrite string_app_cons. cbn [has_char]. rewrite IH. apply orb_true_r.
Qed.

(** X14. The extension is always the end of the file name, and it is
    empty exactly when the name has no dot. *)
Theorem getExtension_suffix (filename : string) :
  ends_with filename (getExtension filename)
  /\ (getExtension filename = ""%string
      <-> has_char "." filename = false).
Proof.
  destruct (last_dot_decomposition "." filename)
    as [Hnone | (p & t & Hf & Ht)].
  - rewrite getExtension_no_dot by exact Hnone. split.
    + exists filename. symmetry. apply string_app_empty_r.
    + tauto.
  - assert (Hdot : has_char "." filename = true)
      by (rewrite Hf; apply has_char_app_cons).
    assert (Hext : exists q e, filename = q +:+ e
                               /\ getExtension filename = e
                               /\ e <> ""%string).
    { destruct (JS.endsWith p ".min") eqn:E.
      - apply endsWith_spec in E as [q Hq].
        exists q, (".min." +:+ t)%string.
        assert (Hf' : filename = q +:+ ".min." +:+ t).
        { rewrite Hf, Hq, string_app_assoc. reflexivity. }
        split; [exact Hf' |]. split; [| discriminate].
        rewrite Hf'. apply getExtension_min, Ht.
      - assert (Hp : ~ ends_with p ".min").
        { rewrite <- endsWith_spec, E. discriminate. }
        exists p, ("." +:+ t)%string.
        split; [exact Hf |]. split; [| discriminate].
        rewrite Hf. apply (getExtension_plain p t Ht Hp). }
    destruct Hext as (q & e & Hq & He & Hne). rewrite He. split.
    + exists q. exact Hq.
    + split; [intros H; contradiction | intros H; congruence].
Qed.

(** ** Grouping by extension *)

Lemma JSMap_get_set {V : Type} (m : list (string * V)) (key key' : string)
    (value : V) :
  JSMap.get (JSMap.set m key value) key'
  = if String.eqb key key' then Some value else JSMap.get m key'.
Proof.
  induction m as [| [k v] m IH]; simpl.
  - reflexivity.
  - destruct (String.eqb_spec k key) as [-> | Hk]; simpl.
    + destruct (String.eqb key key'); reflexivity.
    + rewrite IH. destruct (String.eqb_spec k key') as [-> | Hk'];
        [| reflexivity].
      destruct (String.eqb_spec key key') as [-> | _];
        [contradiction | reflexivity].
Qed.

Lemma JSMap_set_keys {V : Type} (m : list (string * V)) (key : string)
    (value : V) :
  map fst (JSMap.set m key value)
  = if bool_decide (key ∈ map fst m) then map fst m
    else map fst m ++ [key].
Proof.
  induction m as [| [k v] m IH]; [reflexivity |]. simpl.
  destruct (String.eqb_spec k key) as [-> | Hk]; simpl.
  - rewrite bool_decide_eq_true_2 by left. reflexivity.
  - rewrite IH. destruct (bool_decide_reflect (key ∈ map fst m)) as [H | H].
    + rewrite bool_decide_eq_true_2 by (right; exact H). reflexivity.
    + rewrite bool_decide_eq_false_2; [reflexivity |].
      intros [-> | H']%elem_of_cons; [apply Hk; reflexivity | exact (H H')].
Qed.

Lemma JSMap_set_keys_NoDup {V : Type} (m : list (string * V)) (key : string)
    (value : V) :
  NoDup (map fst m) -> NoDup (map fst (JSMap.set m key value)).
Proof.
  intros H. rewrite JSMap_set_keys.
  destruct (bool_decide_reflect (key ∈ map fst m)) as [Hin | Hin];
    [exact H |].
  apply NoDup_app. split; [exact H |]. split; [| apply NoDup_singleton].
  intros x Hx Hx'. apply list_elem_of_singleton in Hx'. subst x.
  contradiction.
Qed.

(** X15. [groupByExtension] keeps one group per extension: under an
    extension the map holds the assets with that extension, in their
    order, and extensions of no asset are absent; the keys are the
    extensions in the order of their first assets, none twice. *)
Theorem groupByExtension_spec (assets : list AnalyzedAsset.t) :
  map fst (groupByExtension assets)
  = first_occurrences
      (map (fun asset => getExtension (AnalyzedAsset.name asset)) assets)
  /\ NoDup (map fst (groupByExtension assets))
  /\ forall ext,
       JSMap.get (groupByExtension assets) ext
       = match filter
                 (fun asset => getExtension (AnalyzedAsset.name asset) = ext)
                 assets with
         | [] => None
         | group => Some group
         end.
Proof.
  induction assets as [| a l (IHo & IHk & IHg)] using rev_ind.
  - split; [reflexivity |]. split; [apply NoDup_nil_2 | reflexivity].
  - unfold groupByExtension, first_occurrences in *.
    rewrite map_app. simpl (map _ [a]). rewrite !foldl_snoc. cbv zeta.
    set (groups := foldl _ [] l) in *.
    split; [rewrite JSMap_set_keys, IHo; reflexivity |].
    split; [apply JSMap_set_keys_NoDup, IHk |].
    intros ext. rewrite JSMap_get_set, filter_app.
    rewrite (IHg (getExtension (AnalyzedAsset.name a))).
    destruct (String.eqb_spec (getExtension (AnalyzedAsset.name a)) ext)
      as [Heq | Hne].
    + rewrite (filter_cons_True _ a) by exact Heq. rewrite filter_nil.
      rewrite Heq. destruct (filter _ l); reflexivity.
    + rewrite (filter_cons_False _ a) by exact Hne.
      rewrite filter_nil, app_nil_r. apply IHg.
Qed.

(** ** Escaping for markdown *)

Lemma replace_global_app (c : ascii) (r a b : string) :
  replace_global c r (a +:+ b)
  = replace_global c r a +:+ replace_global c r b.
Proof.
  induction a as [| x a IH]; [reflexivity |].
  rewrite string_app_cons. cbn [replace_global]. rewrite IH.
  destruct (Ascii.eqb x c).
  - rewrite string_app_assoc. reflexivity.
  - rewrite string_app_cons. reflexivity.
Qed.

Lemma escapeMarkdown_app (a b : string) :
  escapeMarkdown (a +:+ b) = escapeMarkdown a +:+ escapeMarkdown b.
Proof. unfold escapeMarkdown. rewrite !replace_global_app. reflexivity. Qed.

Lemma escapeMarkdown_char (c : ascii) :
  escapeMarkdown (String c "") = escape_char c.
Proof.
  unfold escapeMarkdown, escape_char. cbn [replace_global].
  destruct (Ascii.eqb_spec c "|") as [-> | H1]; [reflexivity |].
  cbn [replace_global].
  destruct (Ascii.eqb_spec c "<") as [-> | H2]; [reflexivity |].
  cbn [replace_global].
  destruct (Ascii.eqb_spec c ">") as [-> | H3]; [reflexivity |].
  cbn [replace_global].
  destruct (Ascii.eqb_spec c double_quote) as [-> | H4]; [reflexivity |].
  cbn [replace_global].
  destruct (Ascii.eqb_spec c "'") as [-> | H5]; reflexivity.
Qed.

Lemma escapeMarkdown_each (text : string) :
  escapeMarkdown text = escape_each text.
Proof.
  induction text as [| c s IH]; [reflexivity |].
  change (String c s) with (String c "" +:+ s).
  rewrite escapeMarkdown_app, escapeMarkdown_char, IH. reflexivity.
Qed.

(** X16. The five replacements of [escapeMarkdown] never touch each
    other's output: the result is the text with each character replaced
    on its own ("|" by "\|", "<" by "&lt;", ">" by "&gt;", the double
    quote by "&quot;", "'" by "&#39;", any other character kept), so
    escaping a concatenation is concatenating the escaped parts. *)
Theorem escapeMarkdown_one_pass (a b : string) :
  escapeMarkdown a = escape_each a
  /\ escapeMarkdown (a +:+ b) = escapeMarkdown a +:+ escapeMarkdown b.
Proof. split; [apply escapeMarkdown_each | apply escapeMarkdown_app]. Qed.

Lemma has_char_app (c : ascii) (a b : string) :
  has_char c (a +:+ b) = has_char c a || has_char c b.
Proof.
  induction a as [| x a IH]; [reflexivity |].
  rewrite string_app_cons. cbn [has_char]. rewrite IH, orb_assoc.
  reflexivity.
Qed.

Lemma escape_char_clean (c x : ascii) :
  x = "<"%char \/ x = ">"%char \/ x = double_quote \/ x = "'"%char ->
  has_char x (escape_char c) = false.
Proof.
  intros Hx. unfold escape_char.
  destruct (Ascii.eqb_spec c "|") as [-> | H1].
  { destruct Hx as [-> | [-> | [-> | ->]]]; reflexivity. }
  destruct (Ascii.eqb_spec c "<") as [-> | H2].
  { destruct Hx as [-> | [-> | [-> | ->]]]; reflexivity. }
  destruct (Ascii.eqb_spec c ">") as [-> | H3].
  { destruct Hx as [-> | [-> | [-> | ->]]]; reflexivity. }
  destruct (Ascii.eqb_spec c double_quote) as [-> | H4].
  { destruct Hx as [-> | [-> | [-> | ->]]]; reflexivity. }
  destruct (Ascii.eqb_spec c "'") as [-> | H5].
  { destruct Hx as [-> | [-> | [-> | ->]]]; reflexivity. }
  cbn [has_char]. rewrite orb_false_r. apply Ascii.eqb_neq.
  destruct Hx as [-> | [-> | [-> | ->]]]; assumption.
Qed.

Lemma escape_each_clean (text : string) (x : ascii) :
  x = "<"%char \/ x = ">"%char \/ x = double_quote \/ x = "'"%char ->
  has_char x (escape_each text) = false.
Proof.
  intros Hx. induction text as [| c s IH]; [reflexivity |].
  cbn [escape_each]. rewrite has_char_app, IH, escape_char_clean by exact Hx.
  reflexivity.
Qed.

Lemma escape_each_pipes (text : string) (after_backslash : bool) :
  pipes_escaped after_backslash (escape_each text) = true.
Proof.
  revert after_backslash. induction text as [| c s IH]; intros b;
    [reflexivity |].
  cbn [escape_each]. unfold escape_char.
  destruct (Ascii.eqb_spec c "|") as [-> | H1].
  { rewrite !string_app_cons. cbn [pipes_escaped].
    change ("" +:+ escape_each s) with (escape_each s).
    simpl. apply IH. }
  destruct (Ascii.eqb_spec c "<") as [-> | H2].
  { rewrite !string_app_cons. cbn [pipes_escaped].
    change ("" +:+ escape_each s) with (escape_each s).
    simpl. apply IH. }
  destruct (Ascii.eqb_spec c ">") as [-> | H3].
  { rewrite !string_app_cons. cbn [pipes_escaped].
    change ("" +:+ escape_each s) with (escape_each s).
    simpl. apply IH. }
  destruct (Ascii.eqb_spec c double_quote) as [-> | H4].
  { rewrite !string_app_cons. cbn [pipes_escaped].
    change ("" +:+ escape_each s) with (escape_each s).
    simpl. apply IH. }
  destruct (Ascii.eqb_spec c "'") as [-> | H5].
  { rewrite !string_app_cons. cbn [pipes_escaped].
    change ("" +:+ escape_each s) with (escape_each s).
    simpl. apply IH. }
  rewrite string_app_cons. cbn [pipes_escaped].
  change ("" +:+ escape_each s) with (escape_each s).
  apply Ascii.eqb_neq in H1. rewrite H1, IH. reflexivity.
Qed.

(** X17. The escaped text holds no "<", no ">", no double quote and no
    "'", and each "|" in it comes right after a backslash. *)
Theorem escapeMarkdown_output (text : string) :
  has_char "<" (escapeMarkdown text) = false
  /\ has_char ">" (escapeMarkdown text) = false
  /\ has_char double_quote (escapeMarkdown text) = false
  /\ has_char "'" (escapeMarkdown text) = false
  /\ pipes_escaped false (escapeMarkdown text) = true.
Proof.
  rewrite escapeMarkdown_each.
  repeat split; try (apply escape_each_clean; tauto).
  apply escape_each_pipes.
Qed.
(** ** Reading the stats file *)

Section ParseFileProperties.
Variable existsSync : string -> bool.
Variable statSync_size : string -> Z.
Variable readFileSync : string -> option string + string.
Variable JSON_parse : string -> string + json.

Lemma parse_error_code (content : string) :
  error_code (StatsParser.parse JSON_parse content) = Some JSON_PARSE_ERROR
  \/ error_code (StatsParser.parse JSON_parse content)
     = Some INVALID_STATS_FORMAT
  \/ error_code (StatsParser.parse JSON_parse content) = None.
Proof.
  unfold StatsParser.parse. destruct (JSON_parse content) as [msg | data].
  - left. reflexivity.
  - destruct (StatsParser.isValidStats data); simpl; auto.
Qed.

Lemma parse_error_fatal (content : string) (e : BundleStatsError.t) :
  StatsParser.parse JSON_parse content = inl e ->
  BundleStatsError.level e = fatal.
Proof.
  unfold StatsParser.parse. destruct (JSON_parse content) as [msg | data].
  - intros [= <-]. reflexivity.
  - destruct (StatsParser.isValidStats data); simpl; [discriminate |].
    intros [= <-]. reflexivity.
Qed.
End ParseFileProperties.

(** X18. [parseFile] checks in this order: a missing file is a
    FILE_NOT_FOUND; a file of more than 52428800 bytes is a FILE_TOO_LARGE
    whatever it contains, and one of exactly 52428800 bytes is not; a
    file that cannot be read is a FILE_READ_ERROR; any other file is
    handed to [parse]. *)
Theorem parseFile_checks (existsSync : string -> bool)
    (statSync_size : string -> Z)
    (readFileSync : string -> option string + string)
    (JSON_parse : string -> string + json) (filePath : string) :
  let outcome :=
    parseFile existsSync statSync_size readFileSync JSON_parse filePath in
  (error_code outcome = Some FILE_NOT_FOUND
   <-> existsSync filePath = false)
  /\ (error_code outcome = Some FILE_TOO_LARGE
      <-> existsSync filePath = true /\ 52428800 < statSync_size filePath)
  /\ (error_code outcome = Some FILE_READ_ERROR
      <-> existsSync filePath = true /\ statSync_size filePath <= 52428800
          /\ exists thrown, readFileSync filePath = inl thrown)
  /\ (forall content,
        existsSync filePath = true ->
        statSync_size filePath <= 52428800 ->
        readFileSync filePath = inr content ->
        outcome = StatsParser.parse JSON_parse content).
Proof.
  intros outcome. unfold outcome, parseFile.
  change MAX_FILE_SIZE with 52428800.
  destruct (existsSync filePath); simpl negb; cbv iota zeta.
  2: { simpl error_code. intuition (try discriminate; try lia). }
  destruct (Z.ltb_spec 52428800 (statSync_size filePath)) as [Hbig | Hok].
  { simpl error_code. intuition (try discriminate; try lia). }
  destruct (readFileSync filePath) as [thrown | content] eqn:Hread.
  { simpl error_code.
    intuition (try discriminate; try lia; eauto). }
  assert (Hcode : forall c,
            c = FILE_NOT_FOUND \/ c = FILE_TOO_LARGE \/ c = FILE_READ_ERROR ->
            error_code (StatsParser.parse JSON_parse content) <> Some c).
  { intros c Hc Heq.
    destruct (parse_error_code JSON_parse content) as [H | [H | H]];
      rewrite H in Heq; destruct Hc as [-> | [-> | ->]]; discriminate. }
  split; [| split; [| split]].
  - split; [| discriminate]. intros H. exfalso.
    apply (Hcode FILE_NOT_FOUND); tauto.
  - split; [| intros [_ H]; lia]. intros H. exfalso.
    apply (Hcode FILE_TOO_LARGE); tauto.
  - split; [| intros (_ & _ & thrown & H); discriminate]. intros H. exfalso.
    apply (Hcode FILE_READ_ERROR); tauto.
  - intros content' _ _ [= <-]. reflexivity.
Qed.

(** X19. Every error [parseFile] ends with is fatal, and its code is one
    of FILE_NOT_FOUND, FILE_TOO_LARGE, FILE_READ_ERROR, JSON_PARSE_ERROR
    and INVALID_STATS_FORMAT. *)
Theorem parseFile_errors_fatal (existsSync : string -> bool)
    (statSync_size : string -> Z)
    (readFileSync : string -> option string + string)
    (JSON_parse : string -> string + json) (filePath : string)
    (e : BundleStatsError.t) :
  parseFile existsSync statSync_size readFileSync JSON_parse filePath = inl e ->
  BundleStatsError.level e = fatal
  /\ BundleStatsError.code e
     ∈ [FILE_NOT_FOUND; FILE_TOO_LARGE; FILE_READ_ERROR; JSON_PARSE_ERROR;
        INVALID_STATS_FORMAT].
Proof.
  unfold parseFile.
  destruct (existsSync filePath); simpl negb; cbv iota;
    [| intros [= <-]; split; [reflexivity | set_solver]].
  cbv zeta. destruct (MAX_FILE_SIZE <? statSync_size filePath);
    [intros [= <-]; split; [reflexivity | set_solver] |].
  destruct (readFileSync filePath) as [thrown | content];
    [intros [= <-]; split; [reflexivity | set_solver] |].
  intros H. split; [exact (parse_error_fatal JSON_parse content e H) |].
  pose proof (parse_error_code JSON_parse content) as Hcode.
  rewrite H in Hcode. simpl in Hcode.
  destruct Hcode as [[= ->] | [[= ->] | ?]]; [set_solver | set_solver |].
  discriminate.
Qed.

Lemma parseFile_errors_fatal_witness :
  BundleStatsError.level
    (createError FILE_NOT_FOUND ("Stats file not found: " +:+ "stats.json")
       fatal)
  = fatal.
Proof.
  apply (parseFile_errors_fatal (fun _ => false) (fun _ => 0)
           (fun _ => inr ""%string) (fun _ => inl ""%string) "stats.json").
  reflexivity.
Defined.

(** X20. What [parseFile] returns is the value [JSON.parse] decodes from
    the content of the file, which exists and has at most 52428800 bytes,
    and that value is an object with an array under "assets". *)
Theorem parseFile_returns (existsSync : string -> bool)
    (statSync_size : string -> Z)
    (readFileSync : string -> option string + string)
    (JSON_parse : string -> string + json) (filePath : string)
    (data : json) :
  parseFile existsSync statSync_size readFileSync JSON_parse filePath
  = inr data ->
  existsSync filePath = true
  /\ statSync_size filePath <= 52428800
  /\ (exists content, readFileSync filePath = inr content
                      /\ JSON_parse content = inr data)
  /\ object_with_assets_array data.
Proof.
  unfold parseFile. change MAX_FILE_SIZE with 52428800.
  destruct (existsSync filePath); simpl negb; cbv iota; [| discriminate].
  cbv zeta.
  destruct (Z.ltb_spec 52428800 (statSync_size filePath)) as [Hbig | Hok];
    [discriminate |].
  destruct (readFileSync filePath) as [thrown | content]; [discriminate |].
  unfold StatsParser.parse.
  destruct (JSON_parse content) as [msg | data'] eqn:Hparse; [discriminate |].
  destruct (StatsParser.isValidStats data') eqn:Hvalid; simpl;
    [| discriminate].
  intros [= <-]. split; [reflexivity |]. split; [exact Hok |].
  split; [exists content; split; [reflexivity | exact Hparse] |].
  apply isValidStats_spec, Hvalid.
Qed.

Lemma parseFile_returns_witness :
  object_with_assets_array (JObject [("assets"%string, JArray [])]).
Proof.
  apply (parseFile_returns (fun _ => true) (fun _ => 10)
           (fun _ => inr "{}"%string)
           (fun _ => inr (JObject [("assets"%string, JArray [])]))
           "stats.json").
  reflexivity.
Defined.

(** ** Errors of the comment manager *)

Lemma string_includes_cons (c : ascii) (s sub : string) :
  string_includes (String c s) sub
  = String.prefix sub (String c s) || string_includes s sub.
Proof. reflexivity. Qed.

(** A match cannot start in a text that lacks the first character of
    what is looked for. *)
Lemma string_includes_app_skip (p s : string) (c : ascii) (sub : string) :
  has_char c p = false ->
  string_includes (p +:+ s) (String c sub) = string_includes s (String c sub).
Proof.
  intros Hp. induction p as [| x p IH]; [reflexivity |].
  cbn [has_char] in Hp. apply orb_false_elim in Hp as [Hx Hp].
  rewrite string_app_cons, string_includes_cons, IH by exact Hp.
  cbn [String.prefix]. destruct (ascii_dec c x) as [-> | _].
  - rewrite Ascii.eqb_refl in Hx. discriminate.
  - reflexivity.
Qed.
Lemma rate_limit_message_kept :
  string_includes
    ("Failed to list comments" +:+ ": GitHub API rate limit exceeded")
    "rate limit" = true.
Proof. vm_compute. reflexivity. Qed.

Lemma permission_message_lost :
  string_includes
    ("Failed to list comments" +:+ ": Insufficient permissions. Ensure GITHUB_TOKEN has 'pull-requests: write' permission")
    "rate limit" = false
  /\ string_includes
       ("Failed to list comments" +:+ ": Insufficient permissions. Ensure GITHUB_TOKEN has 'pull-requests: write' permission")
       "Resource not accessible" = false.
Proof. vm_compute. split; reflexivity. Qed.

Lemma unknown_message_plain :
  string_includes ("Failed to list comments" +:+ ": " +:+ "Unknown error")
    "rate limit" = false
  /\ string_includes ("Failed to list comments" +:+ ": " +:+ "Unknown error")
       "Resource not accessible" = false.
Proof. vm_compute. split; reflexivity. Qed.

Lemma handleApiError_rewrapped (thrown : Thrown) :
  let first := CommentManager.handleApiError thrown "Failed to list comments" in
  let second :=
    CommentManager.handleApiError
      (ThrownError (BundleStatsError.message first)) "Failed to post comment" in
  BundleStatsError.level second = error
  /\ BundleStatsError.code second = BundleStatsError.code first.
Proof.
  cbv zeta. destruct thrown as [m |]; unfold CommentManager.handleApiError.
  - destruct (string_includes m "rate limit") eqn:Hrate.
    { cbn [createError BundleStatsError.message].
      rewrite rate_limit_message_kept. split; reflexivity. }
    destruct (string_includes m "Resource not accessible") eqn:Hperm.
    { cbn [createError BundleStatsError.message].
      destruct permission_message_lost as [-> ->]. split; reflexivity. }
    cbn [createError BundleStatsError.message].
    change ("Failed to list comments" +:+ ": " +:+ m)
      with ("Failed to list comments: " +:+ m).
    rewrite (string_includes_app_skip "Failed to list comments: " m "r"
               "ate limit") by reflexivity.
    rewrite (string_includes_app_skip "Failed to list comments: " m "R"
               "esource not accessible") by reflexivity.
    rewrite Hrate, Hperm. split; reflexivity.
  - cbn [createError BundleStatsError.message].
    destruct unknown_message_plain as [-> ->]. split; reflexivity.
Qed.

(** X21. When listing the comments fails, [postComment] fails with an
    error of level 'error', never 'fatal': the error of [listComments] is
    classified a second time by its own message, which keeps a rate limit
    (RATE_LIMIT_ERROR) but no longer shows a permission problem, the one
    case [listComments] itself reports as fatal. *)
Theorem postComment_listing_failure
    (api_updateComment : Z -> string -> Thrown + Z)
    (api_createComment : string -> Thrown + Z)
    (thrown : Thrown) (body : string) :
  exists listing posting,
    CommentManager.listComments (inl thrown) = inl listing
    /\ CommentManager.postComment (inl thrown) api_updateComment
         api_createComment body = inl posting
    /\ BundleStatsError.level posting = error
    /\ BundleStatsError.code posting = BundleStatsError.code listing
    /\ (BundleStatsError.code posting = RATE_LIMIT_ERROR
        <-> exists m, thrown = ThrownError m
                      /\ string_includes m "rate limit" = true)
    /\ (BundleStatsError.level listing = fatal
        <-> exists m, thrown = ThrownError m
                      /\ string_includes m "rate limit" = false
                      /\ string_includes m "Resource not accessible" = true).
Proof.
  exists (CommentManager.handleApiError thrown "Failed to list comments").
  eexists. split; [reflexivity |]. split; [reflexivity |].
  destruct (handleApiError_rewrapped thrown) as [Hlevel Hcode].
  split; [exact Hlevel |]. split; [exact Hcode |].
  cbv zeta in Hcode. rewrite Hcode. clear Hlevel Hcode.
  destruct thrown as [m |]; cbn [CommentManager.handleApiError].
  - destruct (string_includes m "rate limit") eqn:Hrate.
    + split; split; try reflexivity; try discriminate.
      * intros _. exists m. split; [reflexivity | exact Hrate].
      * intros (m' & [= <-] & H & _). congruence.
    + destruct (string_includes m "Resource not accessible") eqn:Hperm.
      * split; split; try reflexivity; try discriminate.
        -- intros (m' & [= <-] & H). congruence.
        -- intros _. exists m. auto.
      * split; split; try discriminate.
        -- intros (m' & [= <-] & H). congruence.
        -- intros (m' & [= <-] & _ & H). congruence.
  - split; split; try discriminate.
    + intros (m & H & _). discriminate.
    + intros (m & H & _). discriminate.
Qed.
